(** * PathSpec: ordered gitignore-style pattern matching

    A shallow embedding of [pathspec/pathspec.py] (class [PathSpec]) and of
    [pathspec/patterns/grepwildmatch.py] (class [GrepWildMatchPattern]).

    Python objects live in a store indexed by addresses, methods that may
    raise run in a state-and-exception monad, dictionaries are [gmap]s and
    sets are [gset]s.  The helpers of [pathspec.util] and the [Pattern]
    class are not part of the two files above; they are modelled from the
    written specification and marked as such. *)

From Stdlib Require Import String Ascii List Bool Lia.
From stdpp Require Import base option list gmap strings fin_maps fin_sets.

Local Open Scope string_scope.
Local Open Scope list_scope.

(** ** Python values, exceptions and results *)

(** The exception classes the modelled code can raise.  Messages are left
    out: no caller in the modelled code inspects them. *)
Inductive exn : Type :=
  | TypeError
  | AttributeError
  | KeyError
  | NameError
  | NotFoundError.

Inductive result (A : Type) : Type :=
  | Ok (a : A)
  | Raise (e : exn).
Arguments Ok {A} a.
Arguments Raise {A} e.

Definition result_bind {A B} (r : result A) (k : A → result B) : result B :=
  match r with
  | Ok a => k a
  | Raise e => Raise e
  end.

Definition is_raise {A} (r : result A) : bool :=
  match r with Ok _ => false | Raise _ => true end.

(** ** Patterns *)

(** Modelled from the spec: the [Pattern] class is not under the modelled
    sources.  Section 3 of the specification gives a compiled pattern its
    source text, its polarity [include], the flags [anchored] and
    [dir_only], and the predicate [matcher] over normalized paths. *)
Record Pattern : Type := mkPattern {
  source : string;
  include : bool;
  anchored : bool;
  dir_only : bool;
  matcher : string → bool
}.

(** A pattern factory compiles one line; [from_lines] documents it as
    accepting an uncompiled pattern and returning the compiled [Pattern]. *)
Definition Factory : Type := string → Pattern.

(** ** Dynamically typed arguments *)

(** Modelled from the spec: [util.TreeEntry] is not under the modelled
    sources; [match-entries] returns the entries whose normalized path
    matched, so an entry carries at least its path. *)
Record TreeEntry : Type := mkTreeEntry {
  entry_name : string;
  entry_path : string
}.

(** The Python values the checked entry points can be handed. *)
Inductive PyVal : Type :=
  | VNone
  | VInt (n : Z)
  | VStr (s : string)
  | VFactory (f : Factory)          (* a callable compiling one line *)
  | VLines (ls : list string)       (* a list of strings *)
  | VFile (ls : list string)        (* an open text file, iterated by line *)
  | VEntries (es : list TreeEntry). (* a list of tree entries *)

(** ** The helpers of [pathspec.util] *)

Module util.

(** Modelled from the spec: [util.match_file] is not under the modelled
    sources.  Section 4.2: initialise the verdict to false; for each
    pattern in order, if its matcher accepts the path, set the verdict to
    the pattern's polarity; return the verdict once all are visited.
    [match_file_loop] is the body of that loop with the running verdict
    as an accumulator. *)
Fixpoint match_file_loop (patterns : list Pattern) (path : string)
    (verdict : bool) : bool :=
  match patterns with
  | [] => verdict
  | pattern :: rest =>
      match_file_loop rest path
        (if matcher pattern path then include pattern else verdict)
  end.

Definition match_file (patterns : list Pattern) (path : string) : bool :=
  match_file_loop patterns path false.

(** Modelled from the spec: [util.match_files] is not under the modelled
    sources.  Section 4.2 (batch): keep a mapping from path to current
    verdict (absent means false); for each pattern in order, for each
    candidate path the matcher accepts, set [mapping[path]] to the
    pattern's polarity; finally return the paths whose value is true. *)
Definition match_files_scan (pattern : Pattern) (paths : gset string)
    (mapping : gmap string bool) : gmap string bool :=
  set_fold
    (λ path m, if matcher pattern path then <[path := include pattern]> m else m)
    mapping paths.

Fixpoint match_files_loop (patterns : list Pattern) (paths : gset string)
    (mapping : gmap string bool) : gmap string bool :=
  match patterns with
  | [] => mapping
  | pattern :: rest =>
      match_files_loop rest paths (match_files_scan pattern paths mapping)
  end.

Definition match_files (patterns : list Pattern) (paths : gset string)
    : gset string :=
  dom (filter (λ kv, kv.2 = true) (match_files_loop patterns paths ∅)).

Section normalize.
(** [util.normalize_file] is an external collaborator (section 6 of the
    specification): a deterministic function of the raw path and the
    optional separators. *)
Variable normalize_file : string → option (list string) → string.

(** Modelled from the spec: [util.normalize_files] is not under the
    modelled sources.  [PathSpec.match_files] iterates its keys as the
    normalized paths and yields [file_map[path]], so it is the
    dictionary sending each normalized path to the file it came from,
    filled in iteration order (a later file overwrites an earlier one
    with the same normalized path). *)
Definition normalize_files (files : list string)
    (separators : option (list string)) : gmap string string :=
  fold_left (λ norm_files path,
               <[normalize_file path separators := path]> norm_files)
            files ∅.

(** Modelled from the spec: [util._normalize_entries] is not under the
    modelled sources.  [PathSpec.match_entries] uses it like
    [normalize_files]: the dictionary from the normalized path of each
    entry to the entry. *)
Definition _normalize_entries (entries : list TreeEntry)
    (separators : option (list string)) : gmap string TreeEntry :=
  fold_left (λ norm_files entry,
               <[normalize_file (entry_path entry) separators := entry]> norm_files)
            entries ∅.
End normalize.

(** Modelled from the spec: [util.lookup_pattern] is not under the
    modelled sources.  Section 9: a static registration table from
    string key to function reference, queried through a lookup that
    returns the registered function or a "not found" error. *)
Definition lookup_pattern (registry : gmap string PyVal) (name : string)
    : result PyVal :=
  match registry !! name with
  | Some factory => Ok factory
  | None => Raise NotFoundError
  end.

End util.

(** ** Operations on dynamically typed values *)

(** [callable(v)] *)
Definition callable (v : PyVal) : bool :=
  match v with VFactory _ => true | _ => false end.

(** [isinstance(v, string_types)] *)
Definition is_string (v : PyVal) : bool :=
  match v with VStr _ => true | _ => false end.

(** [v(line)]: calling a value that is not callable is a [TypeError]. *)
Definition py_call (v : PyVal) (line : string) : result Pattern :=
  match v with
  | VFactory f => Ok (f line)
  | _ => Raise TypeError
  end.

(** The strings an iteration over [v] yields.  Iterating a value without
    the iteration protocol is a [TypeError]; a string yields its
    characters.  Factories and the path normalizer are typed on strings,
    so an item that is not a string is rejected the same way. *)
Definition py_iter_str (v : PyVal) : result (list string) :=
  match v with
  | VLines ls | VFile ls => Ok ls
  | VStr s => Ok (map (λ c, String c EmptyString) (list_ascii_of_string s))
  | VEntries [] => Ok []
  | _ => Raise TypeError
  end.

(** The tree entries an iteration over [v] yields; reading [.path] off a
    string is an [AttributeError]. *)
Definition py_iter_entries (v : PyVal) : result (list TreeEntry) :=
  match v with
  | VEntries es => Ok es
  | VLines [] | VFile [] | VStr EmptyString => Ok []
  | VLines _ | VFile _ | VStr _ => Raise AttributeError
  | _ => Raise TypeError
  end.

(** Truthiness of a line: [if line] keeps the non-empty strings. *)
Definition truthy (line : string) : bool :=
  match line with EmptyString => false | String _ _ => true end.

(** ** Objects and the store *)

Definition addr : Type := nat.

(** The attributes [__init__] sets on a [PathSpec] instance; [parent] and
    [child] are references to other instances. *)
Record PathSpec : Type := mkPathSpec {
  pattern_factory : PyVal;
  lines : list string;
  patterns : list Pattern;
  parent : option addr;
  child : option addr
}.

Definition set_lines (ls : list string) (o : PathSpec) : PathSpec :=
  mkPathSpec (pattern_factory o) ls (patterns o) (parent o) (child o).
Definition set_patterns (ps : list Pattern) (o : PathSpec) : PathSpec :=
  mkPathSpec (pattern_factory o) (lines o) ps (parent o) (child o).
Definition set_parent (p : option addr) (o : PathSpec) : PathSpec :=
  mkPathSpec (pattern_factory o) (lines o) (patterns o) p (child o).
Definition set_child (c : option addr) (o : PathSpec) : PathSpec :=
  mkPathSpec (pattern_factory o) (lines o) (patterns o) (parent o) c.

Abbreviation store := (gmap nat PathSpec).

(** Computations that read and write the store and may raise.  A raise
    keeps the store as it was when the exception left. *)
Definition M (A : Type) : Type := store → result A * store.

Definition ret {A} (a : A) : M A := λ σ, (Ok a, σ).
Definition raise {A} (e : exn) : M A := λ σ, (Raise e, σ).
Definition bind {A B} (m : M A) (k : A → M B) : M B :=
  λ σ, match m σ with
       | (Ok a, σ') => k a σ'
       | (Raise e, σ') => (Raise e, σ')
       end.
Definition lift {A} (r : result A) : M A := λ σ, (r, σ).

Notation "'let!' x ':=' m 'in' k" := (bind m (λ x, k))
  (at level 10, x name, m at level 100, k at level 200, only parsing).
Notation "'do!' m 'in' k" := (bind m (λ _, k))
  (at level 10, m at level 100, k at level 200, only parsing).

(** Attribute reads and writes through a reference.  Methods are only
    ever handed the address of a live instance; the [None] branches keep
    the functions total. *)
Definition getobj (a : addr) : M PathSpec :=
  λ σ, match σ !! a with
       | Some o => (Ok o, σ)
       | None => (Raise AttributeError, σ)
       end.

Definition setattr (a : addr) (f : PathSpec → PathSpec) : M unit :=
  λ σ, match σ !! a with
       | Some o => (Ok tt, <[a := f o]> σ)
       | None => (Raise AttributeError, σ)
       end.

Definition alloc (o : PathSpec) : M addr :=
  λ σ, let a := fresh (dom σ) in (Ok a, <[a := o]> σ).

(** A generator object: its body has not run yet; advancing the generator
    runs it.  Every raise in the bodies below precedes their first yield,
    so running a body either raises or gives all the yielded items. *)
Record Generator (A : Type) : Type := mkGenerator { gen_body : M (list A) }.
Arguments mkGenerator {A} gen_body.
Arguments gen_body {A} g.

Definition drain {A} (g : Generator A) : M (list A) := gen_body g.

(** [mapM] in the result type, left to right. *)
Fixpoint result_mapM {A B} (f : A → result B) (xs : list A) : result (list B) :=
  match xs with
  | [] => Ok []
  | x :: rest =>
      result_bind (f x) (λ y,
      result_bind (result_mapM f rest) (λ ys, Ok (y :: ys)))
  end.

(** [itertools.zip_longest] with the default fill value [None]: once one
    side is exhausted the other is paired with the fill value. *)
Fixpoint izip_longest {A B} (xs : list A) (ys : list B)
    : list (option A * option B) :=
  match xs with
  | [] => map (λ y, (None, Some y)) ys
  | x :: xs' =>
      match ys with
      | [] => map (λ x, (Some x, None)) xs
      | y :: ys' => (Some x, Some y) :: izip_longest xs' ys'
      end
  end.

(** What a method call hands back, for the uniform interface [exec]. *)
Inductive retval : Type :=
  | RBool (b : bool)
  | RLen (n : nat)
  | RRef (r : option addr)
  | RPaths (fs : list string)
  | REntries (es : list TreeEntry).

(** The public operations of a [PathSpec]; generator methods are listed
    together with the iteration that consumes them. *)
Inductive method_call : Type :=
  | Call_eq (other : addr)
  | Call_len
  | Call_from_lines (pattern_factory lines : PyVal)
  | Call_from_specfile (pattern_factory : PyVal) (specfile_path : string)
  | Call_push_specfile (specfile_path : string)
  | Call_pop_specfile
  | Call_match_file (file : string) (separators : option (list string))
  | Call_match_entries (entries : PyVal) (separators : option (list string))
  | Call_match_files (files : PyVal) (separators : option (list string))
  | Call_match_tree_entries (root : string)
  | Call_match_tree_files (root : string).

(** ** The class [PathSpec] *)

Section PathSpec_class.

(** The collaborators outside the two modelled files. *)
Variable normalize_file : string → option (list string) → string.
(** [util._is_iterable] *)
Variable _is_iterable : PyVal → bool.
(** [util.lookup_pattern]: yields a value or raises. *)
Variable lookup_pattern : string → result PyVal.
(** The regular files of the file system, each with its lines. *)
Variable fs : gmap string (list string).
(** [util.iter_tree_entries] and [util.iter_tree_files], for the options
    the caller passes along: the iterable over what the walk finds. *)
Variable iter_tree_entries iter_tree_files : string → PyVal.
(** [==] between two patterns. *)
Variable Pattern_eq : Pattern → Pattern → bool.

(** [PathSpec.__init__]: [self.lines] is [lines] itself when it is a
    collection and [list(lines)] otherwise, in both cases the items an
    iteration over [lines] gives; the list comprehension keeps the truthy
    lines and calls the factory on each.  [child] starts as [None].  An
    exception leaves no instance behind. *)
Definition __init__ (lines_arg pattern_factory_arg : PyVal)
    (parent_arg : option addr) : M addr :=
  let! ls := lift (py_iter_str lines_arg) in
  let! ps := lift (result_mapM (py_call pattern_factory_arg) (List.filter truthy ls)) in
  alloc (mkPathSpec pattern_factory_arg ls ps parent_arg None).

(** [a == b] on the items [izip_longest] pairs up: a pattern is never
    equal to the fill value [None]. *)
Definition py_eq (a b : option Pattern) : bool :=
  match a, b with
  | Some x, Some y => Pattern_eq x y
  | None, None => true
  | _, _ => false
  end.

(** [PathSpec.__eq__] for [other] a [PathSpec]. *)
Definition __eq__ (self other : addr) : M bool :=
  let! me := getobj self in
  let! you := getobj other in
  let paired_patterns := izip_longest (patterns me) (patterns you) in
  ret (forallb (λ ab, py_eq ab.1 ab.2) paired_patterns).

(** [PathSpec.__len__] *)
Definition __len__ (self : addr) : M nat :=
  let! me := getobj self in
  ret (length (patterns me)).

(** [PathSpec.from_lines] *)
Definition from_lines (pattern_factory_arg lines_arg : PyVal) : M addr :=
  let! factory := match pattern_factory_arg with
             | VStr name => lift (lookup_pattern name)
             | _ => ret pattern_factory_arg
             end in
  if negb (callable factory) then raise TypeError
  else if negb (_is_iterable lines_arg) then raise TypeError
  else __init__ lines_arg factory None.

(** Binding the positional arguments of a call [cls.from_lines(...)]:
    the method takes exactly [pattern_factory] and [lines]; any other
    number of arguments is a [TypeError]. *)
Definition call_from_lines (args : list PyVal) : M addr :=
  match args with
  | [pattern_factory_arg; lines_arg] => from_lines pattern_factory_arg lines_arg
  | _ => raise TypeError
  end.

(** [PathSpec.from_specfile]: [os.path.isfile] fails on a path that is
    not a regular file; otherwise the file is opened and the handle is
    the single argument of [cls.from_lines(specfile_handle)]. *)
Definition from_specfile (pattern_factory_arg : PyVal)
    (specfile_path : string) : M addr :=
  match fs !! specfile_path with
  | None => raise TypeError
  | Some content =>
      let specfile_handle := VFile content in
      call_from_lines [specfile_handle]
  end.

(** The statements of [push_specfile] after the child has been built:
    the child gets the parent's lines and patterns in front of its own and
    a reference to the parent, the parent a reference to the child, and
    [self.child] is returned. *)
Definition push_specfile_link (self child_spec : addr) : M (option addr) :=
  let! me := getobj self in
  let! c := getobj child_spec in
  do! setattr child_spec (set_lines (lines me ++ lines c)) in
  let! me := getobj self in
  let! c := getobj child_spec in
  do! setattr child_spec (set_patterns (patterns me ++ patterns c)) in
  do! setattr child_spec (set_parent (Some self)) in
  do! setattr self (set_child (Some child_spec)) in
  let! me := getobj self in
  ret (child me).

(** [PathSpec.push_specfile] *)
Definition push_specfile (self : addr) (specfile_path : string)
    : M (option addr) :=
  let! me := getobj self in
  let! child_spec := from_specfile (pattern_factory me) specfile_path in
  push_specfile_link self child_spec.

(** [PathSpec.pop_specfile] *)
Definition pop_specfile (self : addr) : M addr :=
  let! me := getobj self in
  match parent me with
  | None => raise AttributeError
  | Some p => ret p
  end.

(** [PathSpec.match_file] *)
Definition match_file (self : addr) (file : string)
    (separators : option (list string)) : M bool :=
  let! me := getobj self in
  let norm_file := normalize_file file separators in
  ret (util.match_file (patterns me) norm_file).

(** [d[path]] *)
Definition getitem {V} (d : gmap string V) (path : string) : result V :=
  match d !! path with
  | Some v => Ok v
  | None => Raise KeyError
  end.

(** [PathSpec.match_entries]: a generator function, so the call only
    builds the generator. *)
Definition match_entries (self : addr) (entries : PyVal)
    (separators : option (list string)) : M (Generator TreeEntry) :=
  ret (mkGenerator (
    if negb (_is_iterable entries) then raise TypeError
    else
      let! es := lift (py_iter_entries entries) in
      let entry_map := util._normalize_entries normalize_file es separators in
      let! me := getobj self in
      let match_paths := util.match_files (patterns me) (dom entry_map) in
      lift (result_mapM (getitem entry_map) (elements match_paths)))).

(** [PathSpec.match_files]: a generator function as well. *)
Definition match_files (self : addr) (files : PyVal)
    (separators : option (list string)) : M (Generator string) :=
  ret (mkGenerator (
    if negb (_is_iterable files) then raise TypeError
    else
      let! fl := lift (py_iter_str files) in
      let file_map := util.normalize_files normalize_file fl separators in
      let! me := getobj self in
      let matched_files := util.match_files (patterns me) (dom file_map) in
      lift (result_mapM (getitem file_map) (elements matched_files)))).

(** [PathSpec.match_tree_entries] *)
Definition match_tree_entries (self : addr) (root : string)
    : M (Generator TreeEntry) :=
  let entries := iter_tree_entries root in
  match_entries self entries None.

(** [PathSpec.match_tree_files], also bound to the name [match_tree]. *)
Definition match_tree_files (self : addr) (root : string)
    : M (Generator string) :=
  let files := iter_tree_files root in
  match_files self files None.

Definition match_tree := match_tree_files.

(** One public operation on the instance at [self], run to completion. *)
Definition exec (call : method_call) (self : addr) : M retval :=
  match call with
  | Call_eq other => let! b := __eq__ self other in ret (RBool b)
  | Call_len => let! n := __len__ self in ret (RLen n)
  | Call_from_lines pf ls => let! a := from_lines pf ls in ret (RRef (Some a))
  | Call_from_specfile pf path => let! a := from_specfile pf path in ret (RRef (Some a))
  | Call_push_specfile path => let! r := push_specfile self path in ret (RRef r)
  | Call_pop_specfile => let! p := pop_specfile self in ret (RRef (Some p))
  | Call_match_file file seps => let! b := match_file self file seps in ret (RBool b)
  | Call_match_entries entries seps =>
      let! g := match_entries self entries seps in let! es := drain g in ret (REntries es)
  | Call_match_files files seps =>
      let! g := match_files self files seps in let! ps := drain g in ret (RPaths ps)
  | Call_match_tree_entries root =>
      let! g := match_tree_entries self root in let! es := drain g in ret (REntries es)
  | Call_match_tree_files root =>
      let! g := match_tree_files self root in let! ps := drain g in ret (RPaths ps)
  end.

End PathSpec_class.

(** ** The class [GrepWildMatchPattern] *)

(** [posixpath.basename]: what follows the last slash of the path.
    [basename_from seg p] scans [p] with [seg] the segment read so far. *)
Fixpoint basename_from (seg p : string) : string :=
  match p with
  | EmptyString => seg
  | String c rest =>
      if Ascii.eqb c "/"%char then basename_from EmptyString rest
      else basename_from (seg ++ String c EmptyString)%string rest
  end.

Definition basename (p : string) : string := basename_from EmptyString p.

(** What a global name of a module can be bound to. *)
Inductive global_obj : Type :=
  | GModule_os
  | GClass (name : string).

(** Reading a global name: unbound names raise [NameError] (none of the
    names used below is a builtin). *)
Definition load_global (globals : gmap string global_obj) (name : string)
    : result global_obj :=
  match globals !! name with
  | Some o => Ok o
  | None => Raise NameError
  end.

(** The attribute chain [.path.basename] *)
Definition getattr_path_basename (o : global_obj) : result (string → string) :=
  match o with
  | GModule_os => Ok basename
  | GClass _ => Raise AttributeError
  end.

(** The global names [grepwildmatch.py] binds: its import statement and its
    class statement both bind [GrepWildMatchPattern], and nothing else is
    imported or defined. *)
Definition grepwildmatch_globals : gmap string global_obj :=
  {[ "GrepWildMatchPattern" := GClass "GrepWildMatchPattern" ]}.

(** [GrepWildMatchPattern.is_specfile], run with the globals of its module. *)
Definition is_specfile (globals : gmap string global_obj) (file_path : string)
    : result bool :=
  result_bind (load_global globals "os") (λ os,
  result_bind (getattr_path_basename os) (λ os_path_basename,
  Ok (String.eqb (os_path_basename file_path) ".grepignore"))).

(** ** Concrete instances used to exercise the statements *)

(** A literal dialect: the compiled pattern accepts exactly the path equal
    to the line, a leading [!] negating it. *)
Definition literal_factory : Factory :=
  λ line,
    match line with
    | String "!"%char rest => mkPattern line false false false (String.eqb rest)
    | _ => mkPattern line true false false (String.eqb line)
    end.

(** Patterns compared by source text and polarity. *)
Definition source_eq (p q : Pattern) : bool :=
  String.eqb (source p) (source q) && Bool.eqb (include p) (include q).

(** A normalizer that drops one leading ["./"]. *)
Definition strip_dot_slash (file : string) (separators : option (list string))
    : string :=
  match file with
  | String "."%char (String "/"%char rest) => rest
  | _ => file
  end.

(** An iterability test accepting lists and open files. *)
Definition list_or_file (v : PyVal) : bool :=
  match v with VLines _ | VFile _ | VEntries _ => true | _ => false end.

(** A registry with the single dialect name ["literal"]. *)
Definition demo_registry : gmap string PyVal :=
  {[ "literal" := VFactory literal_factory ]}.

(** A file system with one specfile. *)
Definition demo_fs : gmap string (list string) :=
  {[ ".gitignore" := ["a.log"; "!b.log"] ]}.

Definition no_walk (root : string) : PyVal := VLines [].

(** A store with a root spec at address 0 and a spec at address 1 whose
    parent is the root. *)
Definition demo_root : PathSpec :=
  mkPathSpec (VFactory literal_factory) ["a.log"]
    [literal_factory "a.log"] None None.
Definition demo_leaf : PathSpec :=
  mkPathSpec (VFactory literal_factory) ["a.log"; "!a.log"; "b"]
    [literal_factory "a.log"; literal_factory "!a.log"; literal_factory "b"]
    (Some 0) None.
Definition demo_empty : PathSpec :=
  mkPathSpec (VFactory literal_factory) [] [] None None.
Definition demo_store : store :=
  <[2 := demo_empty]> (<[1 := demo_leaf]> (<[0 := demo_root]> ∅)).

(** ** Store frames *)

(** A computation keeps the instances that exist when it starts: whatever
    it returns or raises, every address bound before is bound to the same
    object afterwards. *)
Definition preserves {A} (m : M A) : Prop :=
  ∀ (σ σ' : store) (r : result A),
    m σ = (r, σ') →
    ∀ (a : addr) (obj : PathSpec), σ !! a = Some obj → σ' !! a = Some obj.

(** * Properties *)

(** ** The single-path loop of [util.match_file] *)

Lemma match_file_loop_fold (ps : list Pattern) (path : string) (v : bool) :
  util.match_file_loop ps path v
  = fold_left (λ verdict p, if matcher p path then include p else verdict) ps v.
Proof.
  revert v. induction ps as [|p ps IH]; intros v; simpl; [reflexivity|].
  apply IH.
Qed.

Lemma match_file_loop_app (ps qs : list Pattern) (path : string) (v : bool) :
  util.match_file_loop (ps ++ qs) path v
  = util.match_file_loop qs path (util.match_file_loop ps path v).
Proof.
  revert v. induction ps as [|p ps IH]; intros v; simpl; [reflexivity|].
  apply IH.
Qed.

Lemma match_file_loop_no_match (ps : list Pattern) (path : string) (v : bool) :
  (∀ q, q ∈ ps → matcher q path = false) →
  util.match_file_loop ps path v = v.
Proof.
  revert v. induction ps as [|p ps IH]; intros v Hno; simpl; [reflexivity|].
  rewrite (Hno p) by apply list_elem_of_here.
  apply IH. intros q Hq. apply Hno. by apply list_elem_of_further.
Qed.

Lemma match_file_last (before after : list Pattern) (p : Pattern) (path : string) :
  matcher p path = true →
  (∀ q, q ∈ after → matcher q path = false) →
  util.match_file (before ++ p :: after) path = include p.
Proof.
  intros Hp Hafter. unfold util.match_file.
  rewrite match_file_loop_app. simpl. rewrite Hp.
  by apply match_file_loop_no_match.
Qed.

(** The verdict is the polarity of the last pattern accepting the path. *)
Lemma match_file_last_filter (ps : list Pattern) (path : string) :
  util.match_file ps path
  = match last (List.filter (λ p, matcher p path) ps) with
    | Some p => include p
    | None => false
    end.
Proof.
  unfold util.match_file. generalize false as v.
  induction ps as [|p ps IH] using rev_ind; intros v; [reflexivity|].
  rewrite match_file_loop_app, List.filter_app. simpl.
  destruct (matcher p path) eqn:Hp; simpl.
  - by rewrite last_snoc.
  - rewrite app_nil_r. apply IH.
Qed.

(** Two patterns with the same matcher and opposite polarities: the later
    one decides, in either order. *)
Example override_include_last :
  util.match_file [literal_factory "!x"; literal_factory "x"] "x" = true.
Proof. reflexivity. Qed.

Example override_exclude_last :
  util.match_file [literal_factory "x"; literal_factory "!x"] "x" = false.
Proof. reflexivity. Qed.

Section PathSpec_facts.

Variable normalize_file : string → option (list string) → string.
Variable _is_iterable : PyVal → bool.
Variable lookup_pattern : string → result PyVal.
Variable fs : gmap string (list string).
Variable iter_tree_entries iter_tree_files : string → PyVal.
Variable Pattern_eq : Pattern → Pattern → bool.

(** C1. [PathSpec.match_file] returns, without touching the store, the
    verdict obtained from false by visiting the patterns in order and
    taking the polarity of each pattern whose matcher accepts the
    normalized path.  So the last accepting pattern fixes the verdict,
    whatever patterns accepted before it, and a path no pattern accepts
    gets false. *)
Theorem match_file_last_match_wins
    (σ : store) (self : addr) (me : PathSpec)
    (file : string) (separators : option (list string)) :
  σ !! self = Some me →
  let path := normalize_file file separators in
  ∃ verdict : bool,
    match_file normalize_file self file separators σ = (Ok verdict, σ)
    ∧ verdict
      = fold_left (λ v p, if matcher p path then include p else v)
                  (patterns me) false
    ∧ (∀ before p after,
         patterns me = before ++ p :: after →
         matcher p path = true →
         (∀ q, q ∈ after → matcher q path = false) →
         verdict = include p)
    ∧ ((∀ q, q ∈ patterns me → matcher q path = false) → verdict = false).
Proof.
  intros Hself path.
  exists (util.match_file (patterns me) path). repeat split.
  - unfold match_file, bind, getobj, ret. by rewrite Hself.
  - apply match_file_loop_fold.
  - intros before p after -> Hp Hafter. by apply match_file_last.
  - intros Hno. by apply match_file_loop_no_match.
Qed.

(** C4. On a [PathSpec] without patterns [match_file] answers false for
    every path. *)
Theorem match_file_no_patterns
    (σ : store) (self : addr) (me : PathSpec)
    (file : string) (separators : option (list string)) :
  σ !! self = Some me →
  patterns me = [] →
  match_file normalize_file self file separators σ = (Ok false, σ).
Proof.
  intros Hself Hnil.
  unfold match_file, bind, getobj, ret. by rewrite Hself, Hnil.
Qed.

End PathSpec_facts.

Lemma match_file_last_match_wins_witness :
  demo_store !! 1 = Some demo_leaf
  ∧ ∃ verdict : bool,
      match_file strip_dot_slash 1 "./a.log" None demo_store
      = (Ok verdict, demo_store)
      ∧ verdict
        = fold_left (λ v p, if matcher p "a.log" then include p else v)
                    (patterns demo_leaf) false
      ∧ (∀ before p after,
           patterns demo_leaf = before ++ p :: after →
           matcher p "a.log" = true →
           (∀ q, q ∈ after → matcher q "a.log" = false) →
           verdict = include p)
      ∧ ((∀ q, q ∈ patterns demo_leaf → matcher q "a.log" = false)
         → verdict = false).
Proof.
  split; [reflexivity|].
  apply (match_file_last_match_wins strip_dot_slash demo_store 1 demo_leaf
           "./a.log" None).
  reflexivity.
Defined.

Lemma match_file_no_patterns_witness :
  demo_store !! 2 = Some demo_empty
  ∧ patterns demo_empty = []
  ∧ match_file strip_dot_slash 2 "src/main.py" None demo_store
    = (Ok false, demo_store).
Proof.
  split; [reflexivity|]. split; [reflexivity|].
  apply (match_file_no_patterns strip_dot_slash demo_store 2 demo_empty);
    reflexivity.
Defined.

(** ** The batch loop of [util.match_files] *)

(** One pattern's scan over the candidate set overwrites the verdict of
    the candidates it accepts and of nothing else. *)
Lemma match_files_scan_lookup (pattern : Pattern) (paths : gset string)
    (mapping : gmap string bool) (p : string) :
  util.match_files_scan pattern paths mapping !! p
  = if bool_decide (p ∈ paths) && matcher pattern p
    then Some (include pattern) else mapping !! p.
Proof.
  unfold util.match_files_scan. revert paths.
  apply (set_fold_ind_L
    (λ (m : gmap string bool) (X : gset string),
       m !! p = if bool_decide (p ∈ X) && matcher pattern p
                then Some (include pattern) else mapping !! p)).
  - rewrite bool_decide_eq_false_2 by apply not_elem_of_empty. reflexivity.
  - intros x X m Hx IH.
    destruct (decide (p = x)) as [->|Hne].
    + rewrite (bool_decide_eq_true_2 (x ∈ {[x]} ∪ X))
        by (apply elem_of_union_l; by apply elem_of_singleton).
      rewrite (bool_decide_eq_false_2 (x ∈ X)) in IH by done. simpl in *.
      destruct (matcher pattern x); [apply lookup_insert_eq | exact IH].
    + assert (bool_decide (p ∈ {[x]} ∪ X) = bool_decide (p ∈ X)) as ->.
      { apply bool_decide_ext.
        rewrite elem_of_union, elem_of_singleton. tauto. }
      destruct (matcher pattern x); [|exact IH].
      rewrite lookup_insert_ne by done. exact IH.
Qed.

Lemma match_files_loop_outside (ps : list Pattern) (paths : gset string)
    (mapping : gmap string bool) (p : string) :
  p ∉ paths →
  util.match_files_loop ps paths mapping !! p = mapping !! p.
Proof.
  intros Hp. revert mapping.
  induction ps as [|pattern ps IH]; intros mapping; simpl; [reflexivity|].
  rewrite IH, match_files_scan_lookup.
  by rewrite bool_decide_eq_false_2.
Qed.

(** On a candidate, the final mapping value (absent read as false) is the
    verdict of the single-path loop started from the initial value. *)
Lemma match_files_loop_inside (ps : list Pattern) (paths : gset string)
    (mapping : gmap string bool) (p : string) :
  p ∈ paths →
  default false (util.match_files_loop ps paths mapping !! p)
  = util.match_file_loop ps p (default false (mapping !! p)).
Proof.
  intros Hp. revert mapping.
  induction ps as [|pattern ps IH]; intros mapping; simpl; [reflexivity|].
  rewrite IH, match_files_scan_lookup.
  rewrite bool_decide_eq_true_2 by done. simpl.
  by destruct (matcher pattern p).
Qed.

(** Batch and single-path matching agree: the batch result holds exactly
    the candidates whose single-path verdict is true. *)
Lemma util_match_files_spec (ps : list Pattern) (paths : gset string)
    (p : string) :
  p ∈ util.match_files ps paths ↔ p ∈ paths ∧ util.match_file ps p = true.
Proof.
  unfold util.match_files, util.match_file.
  rewrite elem_of_dom. unfold is_Some.
  setoid_rewrite map_lookup_filter_Some. simpl.
  destruct (decide (p ∈ paths)) as [Hin|Hout].
  - pose proof (match_files_loop_inside ps paths ∅ p Hin) as Heq.
    rewrite lookup_empty in Heq. simpl in Heq. rewrite <- Heq.
    split.
    + intros (v & Hv & ->). rewrite Hv. done.
    + intros [_ Hv]. exists true.
      destruct (util.match_files_loop ps paths ∅ !! p) as [[]|]; done.
  - rewrite (match_files_loop_outside ps paths ∅ p Hout), lookup_empty.
    split; [intros (v & Hv & _); done | intros [? _]; done].
Qed.

Lemma result_mapM_id {A} (f : A → result A) (xs : list A) :
  (∀ x, x ∈ xs → f x = Ok x) → result_mapM f xs = Ok xs.
Proof.
  induction xs as [|x xs IH]; intros Hf; simpl; [reflexivity|].
  rewrite (Hf x) by apply list_elem_of_here. simpl.
  rewrite IH; [reflexivity|].
  intros y Hy. apply Hf. by apply list_elem_of_further.
Qed.

(** On files that are their own normal form, [normalize_files] is the
    identity dictionary over them. *)
Lemma normalize_files_normalized
    (normalize_file : string → option (list string) → string)
    (files : list string) (separators : option (list string)) (p : string) :
  (∀ f, f ∈ files → normalize_file f separators = f) →
  util.normalize_files normalize_file files separators !! p
  = if bool_decide (p ∈ files) then Some p else None.
Proof.
  unfold util.normalize_files.
  assert (∀ m : gmap string string,
    (∀ f, f ∈ files → normalize_file f separators = f) →
    fold_left (λ norm_files path,
                 <[normalize_file path separators := path]> norm_files)
              files m !! p
    = if bool_decide (p ∈ files) then Some p else m !! p) as Hgen.
  { induction files as [|f files IH]; intros m Hnorm; simpl.
    - reflexivity.
    - rewrite IH by (intros g Hg; apply Hnorm; by apply list_elem_of_further).
      rewrite (Hnorm f) by apply list_elem_of_here.
      destruct (decide (p ∈ files)) as [Hin|Hout].
      + rewrite (bool_decide_eq_true_2 _ Hin).
        by rewrite bool_decide_eq_true_2 by (by apply list_elem_of_further).
      + rewrite (bool_decide_eq_false_2 _ Hout).
        destruct (decide (p = f)) as [->|Hne].
        * rewrite bool_decide_eq_true_2 by apply list_elem_of_here.
          apply lookup_insert_eq.
        * rewrite bool_decide_eq_false_2
            by (rewrite elem_of_cons; intros [?|?]; done).
          by rewrite lookup_insert_ne. }
  intros Hnorm. rewrite Hgen by done. by rewrite lookup_empty.
Qed.

Section batch_facts.

Variable normalize_file : string → option (list string) → string.
Variable _is_iterable : PyVal → bool.

Lemma match_file_run (σ : store) (self : addr) (me : PathSpec)
    (file : string) (separators : option (list string)) :
  σ !! self = Some me →
  match_file normalize_file self file separators σ
  = (Ok (util.match_file (patterns me) (normalize_file file separators)), σ).
Proof.
  intros Hself. unfold match_file, bind, getobj, ret. by rewrite Hself.
Qed.

(** C2. Handed a list of normalized paths, [PathSpec.match_files] builds
    a generator that yields, each once and without touching the store,
    exactly the paths for which [PathSpec.match_file] answers true; for a
    single path [f], [f] is yielded over [[f]] if and only if
    [match_file] answers true on [f]. *)
Theorem match_files_agrees_with_match_file
    (σ : store) (self : addr) (me : PathSpec)
    (files : list string) (separators : option (list string)) :
  σ !! self = Some me →
  _is_iterable (VLines files) = true →
  (∀ f, f ∈ files → normalize_file f separators = f) →
  ∃ (g : Generator string) (yielded : list string),
    match_files normalize_file _is_iterable self (VLines files) separators σ
    = (Ok g, σ)
    ∧ drain g σ = (Ok yielded, σ)
    ∧ NoDup yielded
    ∧ (∀ f, f ∈ yielded ↔
            f ∈ files
            ∧ match_file normalize_file self f separators σ = (Ok true, σ))
    ∧ (∀ f, files = [f] →
            (f ∈ yielded ↔
             match_file normalize_file self f separators σ = (Ok true, σ))).
Proof.
  intros Hself Hiter Hnorm.
  set (file_map := util.normalize_files normalize_file files separators).
  set (matched := util.match_files (patterns me) (dom file_map)).
  assert (∀ p, p ∈ dom file_map ↔ p ∈ files) as Hdom.
  { intros p. rewrite elem_of_dom. unfold file_map.
    rewrite normalize_files_normalized by done.
    case_bool_decide as Hp; split; intros Hq; try done.
    all: first [by eexists | by destruct Hq]. }
  assert (∀ p, p ∈ matched ↔
               p ∈ files
               ∧ match_file normalize_file self p separators σ = (Ok true, σ))
    as Hmatched.
  { intros p. unfold matched. rewrite util_match_files_spec, Hdom.
    rewrite (match_file_run σ self me) by done.
    split.
    - intros [Hp Hv]. split; [done|]. by rewrite (Hnorm p Hp), Hv.
    - intros [Hp Hv]. split; [done|].
      rewrite (Hnorm p Hp) in Hv. congruence. }
  exists (mkGenerator (
    if negb (_is_iterable (VLines files)) then raise TypeError
    else
      let! fl := lift (py_iter_str (VLines files)) in
      let file_map := util.normalize_files normalize_file fl separators in
      let! me := getobj self in
      let matched_files := util.match_files (patterns me) (dom file_map) in
      lift (result_mapM (getitem file_map) (elements matched_files)))).
  exists (elements matched).
  split; [reflexivity|]. split.
  { unfold drain. simpl. rewrite Hiter. simpl.
    unfold bind, lift, getobj. simpl. rewrite Hself.
    fold file_map. fold matched.
    rewrite result_mapM_id; [reflexivity|].
    intros p Hp. apply elem_of_elements in Hp.
    apply util_match_files_spec in Hp as [Hp _].
    unfold getitem, file_map.
    rewrite normalize_files_normalized by done.
    apply Hdom in Hp. by rewrite bool_decide_eq_true_2. }
  split; [apply NoDup_elements|]. split.
  - intros f. rewrite elem_of_elements. apply Hmatched.
  - intros f ->. rewrite elem_of_elements, Hmatched.
    split; [by intros [_ ?] | intros ?; split; [apply list_elem_of_here | done]].
Qed.

End batch_facts.

Lemma match_files_agrees_with_match_file_witness :
  ∃ (g : Generator string) (yielded : list string),
    match_files strip_dot_slash list_or_file 1 (VLines ["a.log"; "b"; "c"])
      None demo_store
    = (Ok g, demo_store)
    ∧ drain g demo_store = (Ok yielded, demo_store)
    ∧ NoDup yielded
    ∧ (∀ f, f ∈ yielded ↔
            f ∈ ["a.log"; "b"; "c"]
            ∧ match_file strip_dot_slash 1 f None demo_store
              = (Ok true, demo_store))
    ∧ (∀ f, ["a.log"; "b"; "c"] = [f] →
            (f ∈ yielded ↔
             match_file strip_dot_slash 1 f None demo_store
             = (Ok true, demo_store))).
Proof.
  apply (match_files_agrees_with_match_file strip_dot_slash list_or_file
           demo_store 1 demo_leaf ["a.log"; "b"; "c"] None).
  - reflexivity.
  - reflexivity.
  - intros f Hf.
    repeat (apply elem_of_cons in Hf as [->|Hf]; [reflexivity|]).
    by apply elem_of_nil in Hf.
Defined.

(** ** Equality of path-specs *)

Section eq_facts.

Variable Pattern_eq : Pattern → Pattern → bool.

Lemma py_eq_option_Forall2 (a b : option Pattern) :
  py_eq Pattern_eq a b = true
  ↔ option_Forall2 (λ p q, Pattern_eq p q = true) a b.
Proof.
  destruct a as [x|], b as [y|]; simpl; split; intros H;
    try done; try (by constructor); by inversion H.
Qed.

Lemma izip_longest_all (xs ys : list Pattern) :
  forallb (λ ab, py_eq Pattern_eq ab.1 ab.2) (izip_longest xs ys) = true
  ↔ Forall2 (λ p q, Pattern_eq p q = true) xs ys.
Proof.
  revert ys. induction xs as [|x xs IH]; intros [|y ys]; simpl.
  - split; [constructor | done].
  - split; [done | intros H; inversion H].
  - split; [done | intros H; inversion H].
  - rewrite andb_true_iff, IH. split.
    + intros [Hxy Hrest]. by constructor.
    + intros H. inversion H; subst. done.
Qed.

(** C5. [__eq__] on two path-specs answers true exactly when their
    pattern sequences are equal position by position, a missing
    position being read as the fill value [None]; sequences of
    different lengths are therefore unequal. *)
Theorem PathSpec_eq_pairwise
    (σ : store) (self other : addr) (me you : PathSpec) :
  σ !! self = Some me →
  σ !! other = Some you →
  ∃ b : bool,
    __eq__ Pattern_eq self other σ = (Ok b, σ)
    ∧ (b = true ↔
       ∀ i : nat,
         py_eq Pattern_eq (patterns me !! i) (patterns you !! i) = true)
    ∧ (b = true ↔
       Forall2 (λ p q, Pattern_eq p q = true) (patterns me) (patterns you))
    ∧ (length (patterns me) ≠ length (patterns you) → b = false).
Proof.
  intros Hself Hother.
  exists (forallb (λ ab, py_eq Pattern_eq ab.1 ab.2)
            (izip_longest (patterns me) (patterns you))).
  split; [|split; [|split]].
  - unfold __eq__, bind, getobj, ret. by rewrite Hself, Hother.
  - rewrite izip_longest_all, Forall2_lookup.
    split; intros H i; by apply py_eq_option_Forall2.
  - apply izip_longest_all.
  - intros Hlen. apply not_true_is_false. intros Htrue.
    apply izip_longest_all in Htrue.
    by apply Forall2_length in Htrue.
Qed.

End eq_facts.

Lemma PathSpec_eq_pairwise_witness :
  ∃ b : bool,
    __eq__ source_eq 0 1 demo_store = (Ok b, demo_store)
    ∧ (b = true ↔
       ∀ i : nat,
         py_eq source_eq (patterns demo_root !! i) (patterns demo_leaf !! i)
         = true)
    ∧ (b = true ↔
       Forall2 (λ p q, source_eq p q = true)
         (patterns demo_root) (patterns demo_leaf))
    ∧ (length (patterns demo_root) ≠ length (patterns demo_leaf) → b = false).
Proof.
  apply (PathSpec_eq_pairwise source_eq demo_store 0 1 demo_root demo_leaf);
    reflexivity.
Defined.

(** ** Construction *)

Lemma result_mapM_factory (f : Factory) (ls : list string) :
  result_mapM (py_call (VFactory f)) ls = Ok (map f ls).
Proof.
  induction ls as [|l ls IH]; simpl; [reflexivity|]. by rewrite IH.
Qed.

Lemma fresh_unbound (σ : store) : σ !! fresh (dom σ) = None.
Proof. apply not_elem_of_dom, is_fresh. Qed.

Lemma init_run (f : Factory) (ls : list string) (parent_arg : option addr)
    (σ : store) :
  __init__ (VLines ls) (VFactory f) parent_arg σ
  = (Ok (fresh (dom σ)),
     <[fresh (dom σ) :=
         mkPathSpec (VFactory f) ls (map f (List.filter truthy ls))
           parent_arg None]> σ).
Proof.
  unfold __init__, bind, lift, alloc. simpl.
  by rewrite result_mapM_factory.
Qed.

(** C3, as the code has it.  [__init__] drops the empty lines only: every
    non-empty line, a comment line included, is handed to the pattern
    factory and the result is stored, in line order.  The three lines
    ["# comment"], [""] and ["foo"] therefore give a path-spec with two
    pattern entries, the compiled ["# comment"] and the compiled ["foo"],
    and [__len__] of it is 2. *)
Theorem init_compiles_every_nonempty_line
    (f : Factory) (parent_arg : option addr) (σ : store) :
  (∀ ls : list string,
     ∃ a : addr,
       σ !! a = None
       ∧ __init__ (VLines ls) (VFactory f) parent_arg σ
         = (Ok a,
            <[a := mkPathSpec (VFactory f) ls
                     (map f (List.filter (λ l, negb (String.eqb l "")) ls))
                     parent_arg None]> σ))
  ∧ (∃ (a : addr) (σ' : store),
       σ !! a = None
       ∧ __init__ (VLines ["# comment"; ""; "foo"]) (VFactory f) parent_arg σ
         = (Ok a, σ')
       ∧ σ' = <[a := mkPathSpec (VFactory f) ["# comment"; ""; "foo"]
                       [f "# comment"; f "foo"] parent_arg None]> σ
       ∧ __len__ a σ' = (Ok 2, σ')).
Proof.
  split.
  - intros ls. exists (fresh (dom σ)). split; [apply fresh_unbound|].
    rewrite init_run. do 4 f_equal.
    apply List.filter_ext. by intros [|c l].
  - eexists (fresh (dom σ)), _. split; [apply fresh_unbound|].
    split; [apply init_run|]. split; [reflexivity|].
    unfold __len__, bind, getobj. by rewrite lookup_insert_eq.
Qed.

(** C3, as stated, fails: whatever the factory, the three lines never give
    a path-spec with exactly one pattern entry. *)
Lemma three_lines_one_pattern_counterexample :
  ¬ ∃ (f : Factory) (σ σ' : store) (a : addr) (obj : PathSpec),
      __init__ (VLines ["# comment"; ""; "foo"]) (VFactory f) None σ
      = (Ok a, σ')
      ∧ σ' !! a = Some obj
      ∧ length (patterns obj) = 1.
Proof.
  intros (f & σ & σ' & a & obj & Hrun & Hobj & Hlen).
  rewrite init_run in Hrun. simpl in Hrun.
  injection Hrun as <- <-.
  rewrite lookup_insert_eq in Hobj. injection Hobj as <-.
  simpl in Hlen. discriminate.
Qed.

(** ** Specfile chaining *)

Section chain_facts.

Variable _is_iterable : PyVal → bool.
Variable lookup_pattern : string → result PyVal.
Variable fs : gmap string (list string).

(** A call with a single positional argument never binds [lines]. *)
Lemma call_from_lines_one_argument (v : PyVal) (σ : store) :
  call_from_lines _is_iterable lookup_pattern [v] σ = (Raise TypeError, σ).
Proof. reflexivity. Qed.

(** [from_specfile] raises [TypeError] on every path: on one that is not a
    file by its own check, on a file by the call that omits an argument. *)
Lemma from_specfile_raises (pattern_factory_arg : PyVal)
    (specfile_path : string) (σ : store) :
  from_specfile _is_iterable lookup_pattern fs pattern_factory_arg
    specfile_path σ
  = (Raise TypeError, σ).
Proof.
  unfold from_specfile. by destruct (fs !! specfile_path).
Qed.

Lemma push_specfile_run (σ : store) (self : addr) (specfile_path : string) :
  ∃ e : exn,
    push_specfile _is_iterable lookup_pattern fs self specfile_path σ
    = (Raise e, σ)
    ∧ (is_Some (σ !! self) → e = TypeError).
Proof.
  unfold push_specfile, bind at 1, getobj at 1.
  destruct (σ !! self) as [me|].
  - exists TypeError. unfold bind at 1. by rewrite from_specfile_raises.
  - exists AttributeError. split; [reflexivity | by intros [? ?]].
Qed.

(** What the linking statements of [push_specfile] do once a child spec
    exists: the child holds the parent's lines and patterns followed by
    its own and refers to the parent, the parent refers to the child, and
    the child is returned. *)
Lemma push_specfile_link_spec
    (σ : store) (self child_spec : addr) (me c : PathSpec) :
  σ !! self = Some me →
  σ !! child_spec = Some c →
  self ≠ child_spec →
  push_specfile_link self child_spec σ
  = (Ok (Some child_spec),
     <[self := set_child (Some child_spec) me]>
       (<[child_spec :=
            mkPathSpec (pattern_factory c) (lines me ++ lines c)
              (patterns me ++ patterns c) (Some self) (child c)]> σ)).
Proof.
  intros Hself Hchild Hne.
  unfold push_specfile_link, bind, getobj, setattr, ret.
  repeat first
    [ rewrite Hself | rewrite Hchild | rewrite lookup_insert_eq
    | rewrite lookup_insert_ne by done ].
  simpl. by rewrite !insert_insert_eq.
Qed.

(** C6, on the code: [push_specfile] never gets to build the child.  On
    every specfile path it raises [TypeError] out of [from_specfile] and
    leaves the store, and with it the instance's [child], as it was. *)
Theorem push_specfile_raises
    (σ : store) (self : addr) (me : PathSpec) (specfile_path : string) :
  σ !! self = Some me →
  push_specfile _is_iterable lookup_pattern fs self specfile_path σ
  = (Raise TypeError, σ).
Proof.
  intros Hself.
  destruct (push_specfile_run σ self specfile_path) as (e & Hrun & He).
  rewrite Hrun. by rewrite He by (by exists me).
Qed.

(** C9. [pop_specfile] raises [AttributeError] exactly when the instance
    has no parent; with a parent it returns the parent; in both cases the
    store is left as it was. *)
Theorem pop_specfile_spec (σ : store) (self : addr) (me : PathSpec) :
  σ !! self = Some me →
  (pop_specfile self σ = (Raise AttributeError, σ) ↔ parent me = None)
  ∧ (∀ p : addr, parent me = Some p → pop_specfile self σ = (Ok p, σ))
  ∧ snd (pop_specfile self σ) = σ.
Proof.
  intros Hself. unfold pop_specfile, bind, getobj. rewrite Hself.
  destruct (parent me) as [p|]; simpl; repeat split; try done.
  by intros ? [= ->].
Qed.

End chain_facts.

Lemma push_specfile_raises_witness :
  demo_store !! 0 = Some demo_root
  ∧ push_specfile list_or_file (util.lookup_pattern demo_registry) demo_fs
      0 ".gitignore" demo_store
    = (Raise TypeError, demo_store).
Proof.
  split; [reflexivity|].
  apply (push_specfile_raises list_or_file (util.lookup_pattern demo_registry)
           demo_fs demo_store 0 demo_root ".gitignore").
  reflexivity.
Defined.

Lemma pop_specfile_spec_witness :
  (pop_specfile 1 demo_store = (Raise AttributeError, demo_store)
   ↔ parent demo_leaf = None)
  ∧ (∀ p : addr, parent demo_leaf = Some p →
       pop_specfile 1 demo_store = (Ok p, demo_store))
  ∧ snd (pop_specfile 1 demo_store) = demo_store.
Proof.
  apply (pop_specfile_spec demo_store 1 demo_leaf). reflexivity.
Defined.

(** ** Operations and the store *)

Lemma preserves_ret {A} (a : A) : preserves (ret a).
Proof. intros σ σ' r [= <- <-] b obj Hb. exact Hb. Qed.

Lemma preserves_raise {A} (e : exn) : preserves (raise (A:=A) e).
Proof. intros σ σ' r [= <- <-] b obj Hb. exact Hb. Qed.

Lemma preserves_lift {A} (x : result A) : preserves (lift x).
Proof. intros σ σ' r [= <- <-] b obj Hb. exact Hb. Qed.

Lemma preserves_getobj (a : addr) : preserves (getobj a).
Proof.
  intros σ σ' r Hrun b obj Hb. unfold getobj in Hrun.
  destruct (σ !! a); injection Hrun as <- <-; exact Hb.
Qed.

Lemma preserves_alloc (o : PathSpec) : preserves (alloc o).
Proof.
  intros σ σ' r [= <- <-] b obj Hb.
  rewrite lookup_insert_ne; [exact Hb|].
  intros <-. by rewrite fresh_unbound in Hb.
Qed.

Lemma preserves_bind {A B} (m : M A) (k : A → M B) :
  preserves m → (∀ a, preserves (k a)) → preserves (bind m k).
Proof.
  intros Hm Hk σ σ' r Hrun b obj Hb. unfold bind in Hrun.
  destruct (m σ) as [[a|e] σ1] eqn:Hmσ.
  - eapply Hk; [exact Hrun|]. eapply Hm; [exact Hmσ | exact Hb].
  - injection Hrun as <- <-. eapply Hm; [exact Hmσ | exact Hb].
Qed.

Lemma preserves_unchanged {A} (m : M A) :
  (∀ σ, snd (m σ) = σ) → preserves m.
Proof.
  intros Hm σ σ' r Hrun b obj Hb.
  specialize (Hm σ). rewrite Hrun in Hm. simpl in Hm. by subst.
Qed.

Lemma bind_ret_l {A B} (a : A) (k : A → M B) : bind (ret a) k = k a.
Proof. reflexivity. Qed.

Create HintDb frame.

#[local] Hint Resolve preserves_ret preserves_raise preserves_lift
  preserves_getobj preserves_alloc : frame.

Ltac frame :=
  repeat first
    [ apply preserves_bind; [|intros ?]
    | match goal with
      | |- preserves (if ?b then _ else _) => destruct b
      | |- preserves (match ?x with _ => _ end) => destruct x
      end
    | solve [auto with frame] ].

Section frame_facts.

Variable normalize_file : string → option (list string) → string.
Variable _is_iterable : PyVal → bool.
Variable lookup_pattern : string → result PyVal.
Variable fs : gmap string (list string).
Variable iter_tree_entries iter_tree_files : string → PyVal.
Variable Pattern_eq : Pattern → Pattern → bool.

Lemma preserves_init (lines_arg pattern_factory_arg : PyVal)
    (parent_arg : option addr) :
  preserves (__init__ lines_arg pattern_factory_arg parent_arg).
Proof. unfold __init__. frame. Qed.

Lemma preserves_from_lines (pattern_factory_arg lines_arg : PyVal) :
  preserves (from_lines _is_iterable lookup_pattern pattern_factory_arg lines_arg).
Proof.
  unfold from_lines. apply preserves_bind.
  - destruct pattern_factory_arg; auto with frame.
  - intros factory.
    destruct (negb (callable factory)); [auto with frame|].
    destruct (negb (_is_iterable lines_arg)); [auto with frame|].
    apply preserves_init.
Qed.

Lemma preserves_push_specfile (self : addr) (specfile_path : string) :
  preserves (push_specfile _is_iterable lookup_pattern fs self specfile_path).
Proof.
  apply preserves_unchanged. intros σ.
  destruct (push_specfile_run _is_iterable lookup_pattern fs σ self
              specfile_path) as (e & Hrun & _).
  by rewrite Hrun.
Qed.

Lemma preserves_match_entries (self : addr) (entries : PyVal)
    (separators : option (list string)) :
  preserves
    (let! g := match_entries normalize_file _is_iterable self entries separators in
     let! es := drain g in
     ret (REntries es)).
Proof.
  unfold match_entries. rewrite bind_ret_l. unfold drain. simpl. frame.
Qed.

Lemma preserves_match_files (self : addr) (files : PyVal)
    (separators : option (list string)) :
  preserves
    (let! g := match_files normalize_file _is_iterable self files separators in
     let! ps := drain g in
     ret (RPaths ps)).
Proof.
  unfold match_files. rewrite bind_ret_l. unfold drain. simpl. frame.
Qed.

(** C7. No public operation changes an instance that already exists: run
    on any store, each of them, whether it returns or raises and with its
    generators consumed, leaves every existing instance with the same
    [patterns], [lines], [parent], [child] and [pattern_factory]. *)
Theorem public_operations_keep_instances
    (call : method_call) (self : addr) (σ σ' : store) (r : result retval) :
  exec normalize_file _is_iterable lookup_pattern fs
    iter_tree_entries iter_tree_files Pattern_eq call self σ = (r, σ') →
  ∀ (a : addr) (obj : PathSpec), σ !! a = Some obj → σ' !! a = Some obj.
Proof.
  revert σ σ' r. change (preserves
    (exec normalize_file _is_iterable lookup_pattern fs
       iter_tree_entries iter_tree_files Pattern_eq call self)).
  destruct call; unfold exec.
  - unfold __eq__. frame.
  - unfold __len__. frame.
  - apply preserves_bind; [apply preserves_from_lines | intros; frame].
  - apply preserves_bind; [|intros; frame].
    apply preserves_unchanged. intros σ. by rewrite from_specfile_raises.
  - apply preserves_bind; [apply preserves_push_specfile | intros; frame].
  - unfold pop_specfile. frame.
  - unfold match_file. frame.
  - apply preserves_match_entries.
  - apply preserves_match_files.
  - apply preserves_match_entries.
  - apply preserves_match_files.
Qed.

End frame_facts.

Lemma public_operations_keep_instances_witness :
  exec strip_dot_slash list_or_file (util.lookup_pattern demo_registry)
    demo_fs no_walk no_walk source_eq
    (Call_from_lines (VStr "literal") (VLines ["*.log"; ""; "x"])) 0 demo_store
  = (Ok (RRef (Some 3)),
     <[3 := mkPathSpec (VFactory literal_factory) ["*.log"; ""; "x"]
              [literal_factory "*.log"; literal_factory "x"] None None]>
       demo_store)
  ∧ demo_store !! 1 = Some demo_leaf
  ∧ <[3 := mkPathSpec (VFactory literal_factory) ["*.log"; ""; "x"]
             [literal_factory "*.log"; literal_factory "x"] None None]>
      demo_store !! 1
    = Some demo_leaf.
Proof.
  split; [reflexivity|]. split; [reflexivity|].
  apply (public_operations_keep_instances strip_dot_slash list_or_file
           (util.lookup_pattern demo_registry) demo_fs no_walk no_walk
           source_eq
           (Call_from_lines (VStr "literal") (VLines ["*.log"; ""; "x"]))
           0 demo_store _ (Ok (RRef (Some 3))));
    reflexivity.
Defined.

(** ** Configuration errors *)

Section config_facts.

Variable normalize_file : string → option (list string) → string.
Variable _is_iterable : PyVal → bool.
Variable lookup_pattern : string → result PyVal.

(** C8, as the code has it.  [from_lines] raises [TypeError] when the
    factory argument is neither a name nor callable, when the registry
    resolves the name to something that is not callable, and when [lines]
    is not iterable; when the registry lookup itself raises, as for a name
    it does not know, [from_lines] passes that exception on as it is.
    [match_files] and [match_entries] are generator functions: called on a
    non-iterable argument they return a generator without raising, and
    advancing that generator raises [TypeError].  In each case the store
    is left as it was (no instance is created) and nothing is returned or
    yielded. *)
Theorem configuration_errors :
  (∀ pf lines_arg σ,
     is_string pf = false → callable pf = false →
     from_lines _is_iterable lookup_pattern pf lines_arg σ
     = (Raise TypeError, σ))
  ∧ (∀ name v lines_arg σ,
       lookup_pattern name = Ok v → callable v = false →
       from_lines _is_iterable lookup_pattern (VStr name) lines_arg σ
       = (Raise TypeError, σ))
  ∧ (∀ name e lines_arg σ,
       lookup_pattern name = Raise e →
       from_lines _is_iterable lookup_pattern (VStr name) lines_arg σ
       = (Raise e, σ))
  ∧ (∀ pf lines_arg σ,
       (∀ name, pf = VStr name → ∃ v, lookup_pattern name = Ok v) →
       _is_iterable lines_arg = false →
       from_lines _is_iterable lookup_pattern pf lines_arg σ
       = (Raise TypeError, σ))
  ∧ (∀ self files separators σ,
       _is_iterable files = false →
       ∃ g : Generator string,
         match_files normalize_file _is_iterable self files separators σ
         = (Ok g, σ)
         ∧ drain g σ = (Raise TypeError, σ))
  ∧ (∀ self entries separators σ,
       _is_iterable entries = false →
       ∃ g : Generator TreeEntry,
         match_entries normalize_file _is_iterable self entries separators σ
         = (Ok g, σ)
         ∧ drain g σ = (Raise TypeError, σ)).
Proof.
  repeat apply conj.
  - intros pf lines_arg σ Hstr Hcall.
    unfold from_lines, bind. destruct pf; try discriminate; reflexivity.
  - intros name v lines_arg σ Hlook Hcall.
    unfold from_lines, bind, lift. by rewrite Hlook, Hcall.
  - intros name e lines_arg σ Hlook.
    unfold from_lines, bind, lift. by rewrite Hlook.
  - intros pf lines_arg σ Hresolve Hiter.
    unfold from_lines, bind.
    destruct pf as [| | name | | | |]; simpl; rewrite ?Hiter; try reflexivity.
    destruct (Hresolve name eq_refl) as [v Hv].
    unfold lift. rewrite Hv.
    destruct (callable v); reflexivity.
  - intros self files separators σ Hiter. eexists. split; [reflexivity|].
    unfold drain. simpl. by rewrite Hiter.
  - intros self entries separators σ Hiter. eexists. split; [reflexivity|].
    unfold drain. simpl. by rewrite Hiter.
Qed.

End config_facts.

Lemma configuration_errors_witness :
  from_lines list_or_file (util.lookup_pattern demo_registry)
    (VInt 3) (VLines ["foo"]) demo_store
  = (Raise TypeError, demo_store)
  ∧ from_lines list_or_file (util.lookup_pattern (<["broken" := VNone]> demo_registry))
      (VStr "broken") (VLines ["foo"]) demo_store
    = (Raise TypeError, demo_store)
  ∧ from_lines list_or_file (util.lookup_pattern demo_registry)
      (VStr "nosuchdialect") (VLines ["foo"]) demo_store
    = (Raise NotFoundError, demo_store)
  ∧ from_lines list_or_file (util.lookup_pattern demo_registry)
      (VStr "literal") (VInt 7) demo_store
    = (Raise TypeError, demo_store)
  ∧ (∃ g : Generator string,
       match_files strip_dot_slash list_or_file 1 (VInt 5) None demo_store
       = (Ok g, demo_store)
       ∧ drain g demo_store = (Raise TypeError, demo_store))
  ∧ (∃ g : Generator TreeEntry,
       match_entries strip_dot_slash list_or_file 1 VNone None demo_store
       = (Ok g, demo_store)
       ∧ drain g demo_store = (Raise TypeError, demo_store)).
Proof.
  destruct (configuration_errors strip_dot_slash list_or_file
              (util.lookup_pattern demo_registry))
    as (Hvalue & _ & Hunknown & Hlines & Hfiles & Hentries).
  destruct (configuration_errors strip_dot_slash list_or_file
              (util.lookup_pattern (<["broken" := VNone]> demo_registry)))
    as (_ & Hresolved & _).
  repeat apply conj.
  - apply Hvalue; reflexivity.
  - apply (Hresolved "broken" VNone); reflexivity.
  - apply Hunknown; reflexivity.
  - apply Hlines; [|reflexivity].
    intros name [= <-]. by exists (VFactory literal_factory).
  - apply Hfiles; reflexivity.
  - apply Hentries; reflexivity.
Defined.

(** C8, as stated, fails twice: a dialect name the registry does not know
    makes [from_lines] fail with the lookup's not-found error, not with
    [TypeError]; and calling [match_files] or [match_entries] on a value
    that is not iterable does not raise. *)
Lemma configuration_errors_counterexample :
  fst (from_lines list_or_file (util.lookup_pattern demo_registry)
         (VStr "nosuchdialect") (VLines ["foo"]) demo_store)
  = Raise NotFoundError
  ∧ list_or_file (VInt 5) = false
  ∧ is_raise (fst (match_files strip_dot_slash list_or_file 1
                     (VInt 5) None demo_store)) = false
  ∧ is_raise (fst (match_entries strip_dot_slash list_or_file 1
                     (VInt 5) None demo_store)) = false.
Proof. repeat split. Qed.

(** ** [GrepWildMatchPattern.is_specfile] *)

(** With [os] bound to the module of that name, [is_specfile] compares the
    basename with [".grepignore"]. *)
Lemma is_specfile_with_os (globals : gmap string global_obj)
    (file_path : string) :
  globals !! "os" = Some GModule_os →
  is_specfile globals file_path
  = Ok (String.eqb (basename file_path) ".grepignore").
Proof.
  intros Hos. unfold is_specfile, load_global. by rewrite Hos.
Qed.

Example basename_nested : basename "src/sub/.grepignore" = ".grepignore".
Proof. reflexivity. Qed.

Example basename_trailing_slash : basename ".grepignore/" = "".
Proof. reflexivity. Qed.

(** C10, on the code: [grepwildmatch.py] never binds the name [os], so
    [is_specfile] raises [NameError] on every path and returns neither
    true nor false. *)
Theorem is_specfile_name_error (file_path : string) :
  is_specfile grepwildmatch_globals file_path = Raise NameError.
Proof. reflexivity. Qed.

(** * Further properties of the modelled code *)

(** ** Dictionaries keyed by normalized path *)

Section keyed.

Context {V : Type}.
Variable key : V → string.

(** The dictionary built by assigning [d[key x] = x] for each item in
    turn: appending an item is one more assignment. *)
Lemma keyed_snoc (xs : list V) (x : V) (d : gmap string V) :
  fold_left (λ (m : gmap string V) y, <[key y := y]> m) (xs ++ [x]) d
  = <[key x := x]> (fold_left (λ (m : gmap string V) y, <[key y := y]> m) xs d).
Proof. by rewrite fold_left_app. Qed.

(** Every value stored is one of the items, under its own key. *)
Lemma keyed_lookup_sound (xs : list V) (k : string) (v : V) :
  fold_left (λ (m : gmap string V) y, <[key y := y]> m) xs ∅ !! k = Some v →
  v ∈ xs ∧ key v = k.
Proof.
  induction xs as [|x xs IH] using rev_ind.
  - simpl. by rewrite lookup_empty.
  - rewrite keyed_snoc. destruct (decide (key x = k)) as [<-|Hne].
    + rewrite lookup_insert_eq. intros [= <-].
      split; [|done]. apply elem_of_app. right. apply list_elem_of_here.
    + rewrite lookup_insert_ne by done. intros Hk.
      destruct (IH Hk) as [Hin Hkey].
      split; [|done]. apply elem_of_app. by left.
Qed.

(** With pairwise different keys every item is stored under its key. *)
Lemma keyed_lookup_complete (xs : list V) (v : V) :
  NoDup (map key xs) →
  v ∈ xs →
  fold_left (λ (m : gmap string V) y, <[key y := y]> m) xs ∅ !! key v = Some v.
Proof.
  induction xs as [|x xs IH] using rev_ind; intros Hnodup Hin.
  - by apply elem_of_nil in Hin.
  - rewrite keyed_snoc. rewrite map_app in Hnodup. simpl in Hnodup.
    apply NoDup_app in Hnodup as (Hxs & Hfresh & _).
    apply elem_of_app in Hin as [Hin|Hin].
    + rewrite lookup_insert_ne; [by apply IH|].
      intros Heq. apply (Hfresh (key v)).
      * apply list_elem_of_fmap. by exists v.
      * rewrite Heq. apply list_elem_of_here.
    + apply list_elem_of_singleton in Hin as ->. apply lookup_insert_eq.
Qed.

(** Looking up every matched key of a dictionary succeeds; the values
    found are those stored under a key the patterns accept, and when each
    value sits under its own key no value is found twice. *)
Lemma matched_values (ps : list Pattern) (d : gmap string V) :
  (∀ k v, d !! k = Some v → key v = k) →
  ∃ vs : list V,
    result_mapM (getitem d) (elements (util.match_files ps (dom d))) = Ok vs
    ∧ NoDup vs
    ∧ ∀ v, v ∈ vs ↔ ∃ k, d !! k = Some v ∧ util.match_file ps k = true.
Proof.
  intros Hkey.
  assert (∀ ks : list string,
    NoDup ks →
    (∀ k, k ∈ ks → is_Some (d !! k)) →
    ∃ vs, result_mapM (getitem d) ks = Ok vs
          ∧ NoDup vs
          ∧ ∀ v, v ∈ vs ↔ ∃ k, k ∈ ks ∧ d !! k = Some v) as Hgen.
  { induction ks as [|k ks IH]; intros Hnodup Hks.
    - exists []. split; [reflexivity|]. split; [constructor|].
      intros v. split.
      + intros Hv. by apply elem_of_nil in Hv.
      + intros (k & Hk & _). by apply elem_of_nil in Hk.
    - apply NoDup_cons in Hnodup as [Hk Hnodup].
      destruct (Hks k (list_elem_of_here _ _)) as [x Hx].
      destruct (IH Hnodup) as (vs & Hrun & Hvsnodup & Hvs).
      { intros k' Hk'. apply Hks. by apply list_elem_of_further. }
      exists (x :: vs). split; [|split].
      + simpl. unfold getitem at 1. rewrite Hx. simpl. by rewrite Hrun.
      + apply NoDup_cons. split; [|done].
        intros Hin. apply Hvs in Hin as (k' & Hk' & Hx').
        apply Hkey in Hx, Hx'. apply Hk. congruence.
      + intros v. rewrite elem_of_cons, Hvs. split.
        * intros [->|(k' & Hk' & Hv)].
          -- exists k. split; [apply list_elem_of_here | done].
          -- exists k'. split; [by apply list_elem_of_further | done].
        * intros (k' & Hk' & Hv). apply elem_of_cons in Hk' as [->|Hk'].
          -- left. congruence.
          -- right. by exists k'. }
  destruct (Hgen (elements (util.match_files ps (dom d))))
    as (vs & Hrun & Hnodup & Hvs).
  { apply NoDup_elements. }
  { intros k Hk. apply elem_of_elements, util_match_files_spec in Hk as [Hk _].
    by apply elem_of_dom. }
  exists vs. split; [exact Hrun|]. split; [exact Hnodup|].
  intros v. rewrite Hvs. split.
  - intros (k & Hk & Hv). exists k. split; [done|].
    by apply elem_of_elements, util_match_files_spec in Hk as [_ Hk].
  - intros (k & Hv & Hk). exists k. split; [|done].
    apply elem_of_elements, util_match_files_spec. split; [|done].
    apply elem_of_dom. by exists v.
Qed.

End keyed.

(** ** Batch matching on arbitrary paths and on entries *)

Section batch_more.

Variable normalize_file : string → option (list string) → string.
Variable _is_iterable : PyVal → bool.
Variable iter_tree_entries iter_tree_files : string → PyVal.

Lemma match_files_drain (σ : store) (self : addr) (me : PathSpec)
    (fl : list string) (separators : option (list string)) :
  σ !! self = Some me →
  _is_iterable (VLines fl) = true →
  ∃ (g : Generator string) (ys : list string),
    match_files normalize_file _is_iterable self (VLines fl) separators σ
    = (Ok g, σ)
    ∧ drain g σ = (Ok ys, σ)
    ∧ NoDup ys
    ∧ ∀ f, f ∈ ys ↔
           ∃ k, util.normalize_files normalize_file fl separators !! k = Some f
                ∧ util.match_file (patterns me) k = true.
Proof.
  intros Hself Hiter.
  destruct (matched_values (λ f, normalize_file f separators) (patterns me)
              (util.normalize_files normalize_file fl separators))
    as (ys & Hrun & Hnodup & Hys).
  { intros k v Hk. by apply keyed_lookup_sound in Hk as [_ ?]. }
  eexists _, ys. split; [reflexivity|]. split; [|by split].
  unfold drain. simpl. rewrite Hiter. simpl.
  unfold bind, lift, getobj. simpl. rewrite Hself. by rewrite Hrun.
Qed.

Lemma match_entries_drain (σ : store) (self : addr) (me : PathSpec)
    (es : list TreeEntry) (separators : option (list string)) :
  σ !! self = Some me →
  _is_iterable (VEntries es) = true →
  ∃ (g : Generator TreeEntry) (ys : list TreeEntry),
    match_entries normalize_file _is_iterable self (VEntries es) separators σ
    = (Ok g, σ)
    ∧ drain g σ = (Ok ys, σ)
    ∧ NoDup ys
    ∧ ∀ e, e ∈ ys ↔
           ∃ k, util._normalize_entries normalize_file es separators !! k = Some e
                ∧ util.match_file (patterns me) k = true.
Proof.
  intros Hself Hiter.
  destruct (matched_values (λ e, normalize_file (entry_path e) separators)
              (patterns me)
              (util._normalize_entries normalize_file es separators))
    as (ys & Hrun & Hnodup & Hys).
  { intros k v Hk. by apply keyed_lookup_sound in Hk as [_ ?]. }
  eexists _, ys. split; [reflexivity|]. split; [|by split].
  unfold drain. simpl. rewrite Hiter. simpl.
  unfold bind, lift, getobj. simpl. rewrite Hself. by rewrite Hrun.
Qed.

Lemma match_files_given_paths
    (σ : store) (self : addr) (me : PathSpec)
    (fl : list string) (separators : option (list string)) :
  σ !! self = Some me →
  _is_iterable (VLines fl) = true →
  ∃ (g : Generator string) (ys : list string),
    match_files normalize_file _is_iterable self (VLines fl) separators σ
    = (Ok g, σ)
    ∧ drain g σ = (Ok ys, σ)
    ∧ NoDup ys
    ∧ (∀ f, f ∈ ys →
            f ∈ fl
            ∧ match_file normalize_file self f separators σ = (Ok true, σ))
    ∧ (NoDup (map (λ f, normalize_file f separators) fl) →
       ∀ f, f ∈ fl →
            match_file normalize_file self f separators σ = (Ok true, σ) →
            f ∈ ys).
Proof.
  intros Hself Hiter.
  destruct (match_files_drain σ self me fl separators Hself Hiter)
    as (g & ys & Hcall & Hdrain & Hnodup & Hys).
  exists g, ys. split; [done|]. split; [done|]. split; [done|]. split.
  - intros f Hf. apply Hys in Hf as (k & Hk & Hmatch).
    apply (keyed_lookup_sound (λ f, normalize_file f separators)) in Hk
      as [Hin <-].
    split; [done|]. rewrite (match_file_run _ σ self me) by done.
    by rewrite Hmatch.
  - intros Hkeys f Hin Hmatch. apply Hys.
    exists (normalize_file f separators). split.
    + by apply (keyed_lookup_complete (λ f, normalize_file f separators)).
    + rewrite (match_file_run _ σ self me) in Hmatch by done. congruence.
Qed.

(** X1. [match_files] yields the paths as they were given, not their
    normalized forms: every yielded path is one of the given files and
    [match_file] answers true on it; and when no two given files have the
    same normalized form, every given file on which [match_file] answers
    true is yielded.  No path is yielded twice and the store is not
    touched. *)
Theorem match_files_yields_given_paths
    (σ : store) (self : addr) (me : PathSpec)
    (fl : list string) (separators : option (list string)) :
  σ !! self = Some me →
  _is_iterable (VLines fl) = true →
  ∃ (g : Generator string) (ys : list string),
    match_files normalize_file _is_iterable self (VLines fl) separators σ
    = (Ok g, σ)
    ∧ drain g σ = (Ok ys, σ)
    ∧ NoDup ys
    ∧ (∀ f, f ∈ ys →
            f ∈ fl
            ∧ match_file normalize_file self f separators σ = (Ok true, σ))
    ∧ (NoDup (map (λ f, normalize_file f separators) fl) →
       ∀ f, f ∈ fl →
            match_file normalize_file self f separators σ = (Ok true, σ) →
            f ∈ ys).
Proof. apply match_files_given_paths. Qed.

Lemma match_entries_given_entries
    (σ : store) (self : addr) (me : PathSpec)
    (es : list TreeEntry) (separators : option (list string)) :
  σ !! self = Some me →
  _is_iterable (VEntries es) = true →
  ∃ (g : Generator TreeEntry) (ys : list TreeEntry),
    match_entries normalize_file _is_iterable self (VEntries es) separators σ
    = (Ok g, σ)
    ∧ drain g σ = (Ok ys, σ)
    ∧ NoDup ys
    ∧ (∀ e, e ∈ ys →
            e ∈ es
            ∧ match_file normalize_file self (entry_path e) separators σ
              = (Ok true, σ))
    ∧ (NoDup (map (λ e, normalize_file (entry_path e) separators) es) →
       ∀ e, e ∈ es →
            match_file normalize_file self (entry_path e) separators σ
            = (Ok true, σ) →
            e ∈ ys).
Proof.
  intros Hself Hiter.
  destruct (match_entries_drain σ self me es separators Hself Hiter)
    as (g & ys & Hcall & Hdrain & Hnodup & Hys).
  exists g, ys. split; [done|]. split; [done|]. split; [done|]. split.
  - intros e He. apply Hys in He as (k & Hk & Hmatch).
    apply (keyed_lookup_sound
             (λ e, normalize_file (entry_path e) separators)) in Hk
      as [Hin <-].
    split; [done|]. rewrite (match_file_run _ σ self me) by done.
    by rewrite Hmatch.
  - intros Hkeys e Hin Hmatch. apply Hys.
    exists (normalize_file (entry_path e) separators). split.
    + by apply (keyed_lookup_complete
                  (λ e, normalize_file (entry_path e) separators)).
    + rewrite (match_file_run _ σ self me) in Hmatch by done. congruence.
Qed.

(** X2. [match_entries] yields entries out of the given ones, and only
    those on whose path [match_file] answers true; when no two entries
    have the same normalized path, it yields exactly those.  No entry is
    yielded twice and the store is not touched. *)
Theorem match_entries_yields_matching_entries
    (σ : store) (self : addr) (me : PathSpec)
    (es : list TreeEntry) (separators : option (list string)) :
  σ !! self = Some me →
  _is_iterable (VEntries es) = true →
  ∃ (g : Generator TreeEntry) (ys : list TreeEntry),
    match_entries normalize_file _is_iterable self (VEntries es) separators σ
    = (Ok g, σ)
    ∧ drain g σ = (Ok ys, σ)
    ∧ NoDup ys
    ∧ (∀ e, e ∈ ys →
            e ∈ es
            ∧ match_file normalize_file self (entry_path e) separators σ
              = (Ok true, σ))
    ∧ (NoDup (map (λ e, normalize_file (entry_path e) separators) es) →
       ∀ e, e ∈ es →
            match_file normalize_file self (entry_path e) separators σ
            = (Ok true, σ) →
            e ∈ ys).
Proof. apply match_entries_given_entries. Qed.

(** X3. A path-spec without patterns yields nothing: whatever files or
    entries it is handed, [match_files] and [match_entries] finish without
    yielding. *)
Theorem empty_spec_yields_nothing
    (σ : store) (self : addr) (me : PathSpec)
    (separators : option (list string)) :
  σ !! self = Some me →
  patterns me = [] →
  (∀ fl : list string,
     _is_iterable (VLines fl) = true →
     ∃ g : Generator string,
       match_files normalize_file _is_iterable self (VLines fl) separators σ
       = (Ok g, σ)
       ∧ drain g σ = (Ok [], σ))
  ∧ (∀ es : list TreeEntry,
       _is_iterable (VEntries es) = true →
       ∃ g : Generator TreeEntry,
         match_entries normalize_file _is_iterable self (VEntries es)
           separators σ
         = (Ok g, σ)
         ∧ drain g σ = (Ok [], σ)).
Proof.
  intros Hself Hnil. split.
  - intros fl Hiter.
    destruct (match_files_drain σ self me fl separators Hself Hiter)
      as (g & ys & Hcall & Hdrain & _ & Hys).
    exists g. split; [done|]. destruct ys as [|y ys]; [done|].
    destruct (proj1 (Hys y) (list_elem_of_here _ _)) as (k & _ & Hmatch).
    by rewrite Hnil in Hmatch.
  - intros es Hiter.
    destruct (match_entries_drain σ self me es separators Hself Hiter)
      as (g & ys & Hcall & Hdrain & _ & Hys).
    exists g. split; [done|]. destruct ys as [|y ys]; [done|].
    destruct (proj1 (Hys y) (list_elem_of_here _ _)) as (k & _ & Hmatch).
    by rewrite Hnil in Hmatch.
Qed.

(** X4. [match_tree_files], also under its other name [match_tree], and
    [match_tree_entries] match what the walk of [root] finds, always with
    the default separators: they yield only walked files (entries) on
    whose path [match_file], called without separators, answers true, and
    all of those when no two walked paths have the same normalized form. *)
Theorem match_tree_yields_walked_matches
    (σ : store) (self : addr) (me : PathSpec) (root : string) :
  σ !! self = Some me →
  (∀ fl : list string,
     iter_tree_files root = VLines fl →
     _is_iterable (VLines fl) = true →
     ∃ (g : Generator string) (ys : list string),
       match_tree normalize_file _is_iterable iter_tree_files self root σ
       = (Ok g, σ)
       ∧ drain g σ = (Ok ys, σ)
       ∧ NoDup ys
       ∧ (∀ f, f ∈ ys →
               f ∈ fl
               ∧ match_file normalize_file self f None σ = (Ok true, σ))
       ∧ (NoDup (map (λ f, normalize_file f None) fl) →
          ∀ f, f ∈ fl →
               match_file normalize_file self f None σ = (Ok true, σ) →
               f ∈ ys))
  ∧ (∀ es : list TreeEntry,
       iter_tree_entries root = VEntries es →
       _is_iterable (VEntries es) = true →
       ∃ (g : Generator TreeEntry) (ys : list TreeEntry),
         match_tree_entries normalize_file _is_iterable iter_tree_entries
           self root σ
         = (Ok g, σ)
         ∧ drain g σ = (Ok ys, σ)
         ∧ NoDup ys
         ∧ (∀ e, e ∈ ys →
                 e ∈ es
                 ∧ match_file normalize_file self (entry_path e) None σ
                   = (Ok true, σ))
         ∧ (NoDup (map (λ e, normalize_file (entry_path e) None) es) →
            ∀ e, e ∈ es →
                 match_file normalize_file self (entry_path e) None σ
                 = (Ok true, σ) →
                 e ∈ ys)).
Proof.
  intros Hself. split.
  - intros fl Hwalk Hiter.
    unfold match_tree, match_tree_files. rewrite Hwalk.
    by apply (match_files_given_paths σ self me).
  - intros es Hwalk Hiter.
    unfold match_tree_entries. rewrite Hwalk.
    by apply (match_entries_given_entries σ self me).
Qed.

End batch_more.

Lemma match_files_yields_given_paths_witness :
  ∃ (g : Generator string) (ys : list string),
    match_files strip_dot_slash list_or_file 1
      (VLines ["./b"; "c"; "./a.log"]) None demo_store
    = (Ok g, demo_store)
    ∧ drain g demo_store = (Ok ys, demo_store)
    ∧ NoDup ys
    ∧ (∀ f, f ∈ ys →
            f ∈ ["./b"; "c"; "./a.log"]
            ∧ match_file strip_dot_slash 1 f None demo_store
              = (Ok true, demo_store))
    ∧ (NoDup (map (λ f, strip_dot_slash f None) ["./b"; "c"; "./a.log"]) →
       ∀ f, f ∈ ["./b"; "c"; "./a.log"] →
            match_file strip_dot_slash 1 f None demo_store
            = (Ok true, demo_store) →
            f ∈ ys).
Proof.
  apply (match_files_yields_given_paths strip_dot_slash list_or_file
           demo_store 1 demo_leaf ["./b"; "c"; "./a.log"] None);
    reflexivity.
Defined.

Lemma match_entries_yields_matching_entries_witness :
  ∃ (g : Generator TreeEntry) (ys : list TreeEntry),
    match_entries strip_dot_slash list_or_file 1
      (VEntries [mkTreeEntry "b" "./b"; mkTreeEntry "c" "c"]) None demo_store
    = (Ok g, demo_store)
    ∧ drain g demo_store = (Ok ys, demo_store)
    ∧ NoDup ys
    ∧ (∀ e, e ∈ ys →
            e ∈ [mkTreeEntry "b" "./b"; mkTreeEntry "c" "c"]
            ∧ match_file strip_dot_slash 1 (entry_path e) None demo_store
              = (Ok true, demo_store))
    ∧ (NoDup (map (λ e, strip_dot_slash (entry_path e) None)
                [mkTreeEntry "b" "./b"; mkTreeEntry "c" "c"]) →
       ∀ e, e ∈ [mkTreeEntry "b" "./b"; mkTreeEntry "c" "c"] →
            match_file strip_dot_slash 1 (entry_path e) None demo_store
            = (Ok true, demo_store) →
            e ∈ ys).
Proof.
  apply (match_entries_yields_matching_entries strip_dot_slash list_or_file
           demo_store 1 demo_leaf
           [mkTreeEntry "b" "./b"; mkTreeEntry "c" "c"] None);
    reflexivity.
Defined.

Lemma empty_spec_yields_nothing_witness :
  ∃ g : Generator string,
    match_files strip_dot_slash list_or_file 2
      (VLines ["a.log"; "src/main.py"]) None demo_store
    = (Ok g, demo_store)
    ∧ drain g demo_store = (Ok [], demo_store).
Proof.
  destruct (empty_spec_yields_nothing strip_dot_slash list_or_file
              demo_store 2 demo_empty None) as [Hfiles _];
    [reflexivity | reflexivity |].
  apply Hfiles. reflexivity.
Defined.

Lemma match_tree_yields_walked_matches_witness :
  ∃ (g : Generator string) (ys : list string),
    match_tree strip_dot_slash list_or_file (λ _, VLines ["./b"; "c"])
      1 "." demo_store
    = (Ok g, demo_store)
    ∧ drain g demo_store = (Ok ys, demo_store)
    ∧ NoDup ys
    ∧ (∀ f, f ∈ ys →
            f ∈ ["./b"; "c"]
            ∧ match_file strip_dot_slash 1 f None demo_store
              = (Ok true, demo_store))
    ∧ (NoDup (map (λ f, strip_dot_slash f None) ["./b"; "c"]) →
       ∀ f, f ∈ ["./b"; "c"] →
            match_file strip_dot_slash 1 f None demo_store
            = (Ok true, demo_store) →
            f ∈ ys).
Proof.
  destruct (match_tree_yields_walked_matches strip_dot_slash list_or_file
              no_walk (λ _, VLines ["./b"; "c"]) demo_store 1 demo_leaf ".")
    as [Hfiles _]; [reflexivity|].
  apply Hfiles; reflexivity.
Defined.

(** ** Building path-specs *)

Lemma filter_truthy (ls : list string) :
  List.filter truthy ls = List.filter (λ l, negb (String.eqb l "")) ls.
Proof. apply List.filter_ext. by intros [|c l]. Qed.

Lemma init_run_items (lines_arg : PyVal) (f : Factory) (ls : list string)
    (parent_arg : option addr) (σ : store) :
  py_iter_str lines_arg = Ok ls →
  __init__ lines_arg (VFactory f) parent_arg σ
  = (Ok (fresh (dom σ)),
     <[fresh (dom σ) :=
         mkPathSpec (VFactory f) ls (map f (List.filter truthy ls))
           parent_arg None]> σ).
Proof.
  intros Hitems. unfold __init__, bind, lift, alloc. rewrite Hitems.
  by rewrite result_mapM_factory.
Qed.

Lemma result_mapM_not_callable (pf : PyVal) (ls : list string) :
  callable pf = false →
  result_mapM (py_call pf) ls
  = match ls with [] => Ok [] | _ :: _ => Raise TypeError end.
Proof.
  intros Hcall. destruct ls as [|l ls]; [reflexivity|].
  simpl. by destruct pf.
Qed.

Lemma eq_run (Pattern_eq : Pattern → Pattern → bool)
    (σ : store) (self other : addr) (me you : PathSpec) :
  σ !! self = Some me →
  σ !! other = Some you →
  __eq__ Pattern_eq self other σ
  = (Ok (forallb (λ ab, py_eq Pattern_eq ab.1 ab.2)
           (izip_longest (patterns me) (patterns you))), σ).
Proof.
  intros Hself Hother. unfold __eq__, bind, getobj, ret.
  by rewrite Hself, Hother.
Qed.

Section construct_more.

Variable normalize_file : string → option (list string) → string.
Variable _is_iterable : PyVal → bool.
Variable lookup_pattern : string → result PyVal.
Variable fs : gmap string (list string).
Variable Pattern_eq : Pattern → Pattern → bool.

Lemma from_lines_run (pf lines_arg : PyVal) (f : Factory)
    (ls : list string) (σ : store) :
  pf = VFactory f
  ∨ (∃ name, pf = VStr name ∧ lookup_pattern name = Ok (VFactory f)) →
  _is_iterable lines_arg = true →
  py_iter_str lines_arg = Ok ls →
  from_lines _is_iterable lookup_pattern pf lines_arg σ
  = (Ok (fresh (dom σ)),
     <[fresh (dom σ) :=
         mkPathSpec (VFactory f) ls (map f (List.filter truthy ls))
           None None]> σ).
Proof.
  intros Hpf Hiter Hitems. unfold from_lines.
  destruct Hpf as [->|(name & -> & Hlook)].
  - rewrite bind_ret_l. simpl. rewrite Hiter. simpl.
    by apply init_run_items.
  - unfold bind at 1, lift. rewrite Hlook. simpl. rewrite Hiter. simpl.
    by apply init_run_items.
Qed.

(** X5. [from_lines], handed a callable factory, or a name under which the
    registry holds one, and an iterable of lines, returns a new instance
    at an address not in use.  Its lines are the items of the iterable,
    its patterns the factory applied to the non-empty lines in order, its
    stored factory the callable itself (not the name), its parent and
    child [None]; [__len__] of it is the number of non-empty lines. *)
Theorem from_lines_builds_instance
    (pf lines_arg : PyVal) (f : Factory) (ls : list string) (σ : store) :
  pf = VFactory f
  ∨ (∃ name, pf = VStr name ∧ lookup_pattern name = Ok (VFactory f)) →
  _is_iterable lines_arg = true →
  py_iter_str lines_arg = Ok ls →
  ∃ (a : addr) (σ' : store),
    σ !! a = None
    ∧ from_lines _is_iterable lookup_pattern pf lines_arg σ = (Ok a, σ')
    ∧ σ' = <[a := mkPathSpec (VFactory f) ls
                    (map f (List.filter (λ l, negb (String.eqb l "")) ls))
                    None None]> σ
    ∧ __len__ a σ'
      = (Ok (length (List.filter (λ l, negb (String.eqb l "")) ls)), σ').
Proof.
  intros Hpf Hiter Hitems.
  eexists (fresh (dom σ)), _. split; [apply fresh_unbound|].
  split; [by apply from_lines_run|].
  rewrite <- filter_truthy. split; [reflexivity|].
  unfold __len__, bind, getobj. rewrite lookup_insert_eq. simpl.
  by rewrite length_map.
Qed.

(** X6. Empty lines are inert.  Two path-specs built by [from_lines] with
    the same factory, one after the other, from line lists that differ
    only in empty lines are distinct instances that give the same
    [match_file] answer on every file and, pattern equality being
    reflexive, compare equal under [__eq__]. *)
Theorem blank_lines_are_inert
    (pf : PyVal) (f : Factory) (ls1 ls2 : list string) (σ : store) :
  pf = VFactory f
  ∨ (∃ name, pf = VStr name ∧ lookup_pattern name = Ok (VFactory f)) →
  _is_iterable (VLines ls1) = true →
  _is_iterable (VLines ls2) = true →
  List.filter (λ l, negb (String.eqb l "")) ls1
  = List.filter (λ l, negb (String.eqb l "")) ls2 →
  ∃ (a1 a2 : addr) (σ1 σ2 : store),
    from_lines _is_iterable lookup_pattern pf (VLines ls1) σ = (Ok a1, σ1)
    ∧ from_lines _is_iterable lookup_pattern pf (VLines ls2) σ1 = (Ok a2, σ2)
    ∧ a1 ≠ a2
    ∧ (∀ file separators,
         match_file normalize_file a1 file separators σ2
         = match_file normalize_file a2 file separators σ2)
    ∧ ((∀ p, Pattern_eq p p = true) →
       __eq__ Pattern_eq a1 a2 σ2 = (Ok true, σ2)).
Proof.
  intros Hpf Hiter1 Hiter2 Hsame. rewrite <- !filter_truthy in Hsame.
  set (o1 := mkPathSpec (VFactory f) ls1 (map f (List.filter truthy ls1))
               None None).
  set (o2 := mkPathSpec (VFactory f) ls2 (map f (List.filter truthy ls2))
               None None).
  set (a1 := fresh (dom σ)).
  set (σ1 := <[a1 := o1]> σ).
  set (a2 := fresh (dom σ1)).
  set (σ2 := <[a2 := o2]> σ1).
  assert (a1 ≠ a2) as Hne.
  { intros Heq. pose proof (fresh_unbound σ1) as Hfresh.
    fold a2 in Hfresh. rewrite <- Heq in Hfresh.
    unfold σ1 in Hfresh. by rewrite lookup_insert_eq in Hfresh. }
  assert (σ2 !! a1 = Some o1) as H1.
  { unfold σ2. rewrite lookup_insert_ne by done.
    unfold σ1. apply lookup_insert_eq. }
  assert (σ2 !! a2 = Some o2) as H2 by apply lookup_insert_eq.
  exists a1, a2, σ1, σ2.
  split; [by apply from_lines_run|]. split; [by apply from_lines_run|].
  split; [done|]. split.
  - intros file separators.
    rewrite (match_file_run _ σ2 a1 o1), (match_file_run _ σ2 a2 o2) by done.
    simpl. by rewrite Hsame.
  - intros Hrefl. rewrite (eq_run _ σ2 a1 a2 o1 o2) by done.
    do 2 f_equal. apply izip_longest_all. simpl. rewrite Hsame.
    apply Forall_Forall2_diag, Forall_forall. intros p _. apply Hrefl.
Qed.

(** X7. The constructor does not check its factory.  With a factory that
    is not callable, the default [None] included, [__init__] builds an
    instance without patterns when every line is empty, and raises
    [TypeError], leaving no instance, as soon as one line is not empty. *)
Theorem init_without_callable_factory
    (pf : PyVal) (ls : list string) (parent_arg : option addr) (σ : store) :
  callable pf = false →
  ((∀ l, l ∈ ls → l = "") →
   ∃ a : addr,
     σ !! a = None
     ∧ __init__ (VLines ls) pf parent_arg σ
       = (Ok a, <[a := mkPathSpec pf ls [] parent_arg None]> σ))
  ∧ ((∃ l, l ∈ ls ∧ l ≠ "") →
     __init__ (VLines ls) pf parent_arg σ = (Raise TypeError, σ)).
Proof.
  intros Hcall. unfold __init__, bind, lift, alloc. simpl.
  rewrite (result_mapM_not_callable pf) by done. split.
  - intros Hempty. exists (fresh (dom σ)). split; [apply fresh_unbound|].
    assert (List.filter truthy ls = []) as ->; [|reflexivity].
    induction ls as [|l ls IH]; [reflexivity|]. simpl.
    rewrite (Hempty l) by apply list_elem_of_here. simpl.
    apply IH. intros l' Hl'. apply Hempty. by apply list_elem_of_further.
  - intros (l & Hin & Hne).
    assert (l ∈ List.filter truthy ls) as Hl.
    { apply list_elem_of_In, List.filter_In. split.
      - by apply list_elem_of_In.
      - by destruct l. }
    by destruct (List.filter truthy ls); [apply elem_of_nil in Hl|].
Qed.


End construct_more.

Lemma from_lines_builds_instance_witness :
  ∃ (a : addr) (σ' : store),
    demo_store !! a = None
    ∧ from_lines list_or_file (util.lookup_pattern demo_registry)
        (VStr "literal") (VFile ["# keep"; ""; "!b"]) demo_store
      = (Ok a, σ')
    ∧ σ' = <[a := mkPathSpec (VFactory literal_factory) ["# keep"; ""; "!b"]
                    (map literal_factory
                       (List.filter (λ l, negb (String.eqb l ""))
                          ["# keep"; ""; "!b"]))
                    None None]> demo_store
    ∧ __len__ a σ'
      = (Ok (length (List.filter (λ l, negb (String.eqb l ""))
                       ["# keep"; ""; "!b"])), σ').
Proof.
  apply (from_lines_builds_instance list_or_file
           (util.lookup_pattern demo_registry)
           (VStr "literal") (VFile ["# keep"; ""; "!b"]) literal_factory
           ["# keep"; ""; "!b"] demo_store).
  - right. exists "literal". split; reflexivity.
  - reflexivity.
  - reflexivity.
Defined.

Lemma source_eq_refl (p : Pattern) : source_eq p p = true.
Proof.
  unfold source_eq. rewrite String.eqb_refl. by destruct (include p).
Qed.

Lemma source_eq_sym (p q : Pattern) : source_eq p q = source_eq q p.
Proof.
  unfold source_eq. rewrite (String.eqb_sym (source p)).
  by destruct (include p), (include q).
Qed.

Lemma source_eq_trans (p q r : Pattern) :
  source_eq p q = true → source_eq q r = true → source_eq p r = true.
Proof.
  unfold source_eq. rewrite !andb_true_iff.
  intros [Hs1 Hi1] [Hs2 Hi2].
  apply String.eqb_eq in Hs1, Hs2. apply Bool.eqb_prop in Hi1, Hi2.
  rewrite Hs1, Hs2, Hi1, Hi2, String.eqb_refl. by destruct (include r).
Qed.

Lemma blank_lines_are_inert_witness :
  ∃ (a1 a2 : addr) (σ1 σ2 : store),
    from_lines list_or_file (util.lookup_pattern demo_registry)
      (VFactory literal_factory) (VLines [""; "a"; "!b"]) demo_store
    = (Ok a1, σ1)
    ∧ from_lines list_or_file (util.lookup_pattern demo_registry)
        (VFactory literal_factory) (VLines ["a"; ""; ""; "!b"]) σ1
      = (Ok a2, σ2)
    ∧ a1 ≠ a2
    ∧ (∀ file separators,
         match_file strip_dot_slash a1 file separators σ2
         = match_file strip_dot_slash a2 file separators σ2)
    ∧ ((∀ p, source_eq p p = true) →
       __eq__ source_eq a1 a2 σ2 = (Ok true, σ2)).
Proof.
  apply (blank_lines_are_inert strip_dot_slash list_or_file
           (util.lookup_pattern demo_registry) source_eq
           (VFactory literal_factory) literal_factory
           [""; "a"; "!b"] ["a"; ""; ""; "!b"] demo_store).
  - by left.
  - reflexivity.
  - reflexivity.
  - reflexivity.
Defined.

Lemma init_without_callable_factory_witness :
  (∃ a : addr,
     demo_store !! a = None
     ∧ __init__ (VLines [""; ""]) VNone None demo_store
       = (Ok a, <[a := mkPathSpec VNone [""; ""] [] None None]> demo_store))
  ∧ __init__ (VLines [""; "x"]) VNone None demo_store
    = (Raise TypeError, demo_store).
Proof.
  split.
  - apply (init_without_callable_factory VNone [""; ""] None demo_store);
      [reflexivity|].
    intros l Hl.
    repeat (apply elem_of_cons in Hl as [->|Hl]; [reflexivity|]).
    by apply elem_of_nil in Hl.
  - apply (init_without_callable_factory VNone [""; "x"] None demo_store);
      [reflexivity|].
    exists "x". split; [|discriminate].
    apply list_elem_of_further, list_elem_of_here.
Defined.

(** ** Equality is an equivalence *)

Section eq_more.

Variable Pattern_eq : Pattern → Pattern → bool.

(** X9. [__eq__] inherits the laws of pattern equality: it answers true on
    an instance and itself when pattern equality is reflexive, gives the
    same answer in both directions when pattern equality is symmetric, and
    is transitive when pattern equality is. *)
Theorem PathSpec_eq_equivalence
    (σ : store) (a b c : addr) (me you them : PathSpec) :
  σ !! a = Some me →
  σ !! b = Some you →
  σ !! c = Some them →
  ((∀ p, Pattern_eq p p = true) →
   __eq__ Pattern_eq a a σ = (Ok true, σ))
  ∧ ((∀ p q, Pattern_eq p q = Pattern_eq q p) →
     __eq__ Pattern_eq a b σ = __eq__ Pattern_eq b a σ)
  ∧ ((∀ p q r, Pattern_eq p q = true → Pattern_eq q r = true →
               Pattern_eq p r = true) →
     __eq__ Pattern_eq a b σ = (Ok true, σ) →
     __eq__ Pattern_eq b c σ = (Ok true, σ) →
     __eq__ Pattern_eq a c σ = (Ok true, σ)).
Proof.
  intros Ha Hb Hc. repeat apply conj.
  - intros Hrefl. rewrite (eq_run _ σ a a me me) by done.
    do 2 f_equal. apply izip_longest_all.
    apply Forall_Forall2_diag, Forall_forall. intros p _. apply Hrefl.
  - intros Hsym.
    rewrite (eq_run _ σ a b me you), (eq_run _ σ b a you me) by done.
    do 2 f_equal. apply eq_true_iff_eq. rewrite !izip_longest_all.
    rewrite <- (Forall2_flip _ (patterns you) (patterns me)).
    split; intros H; eapply Forall2_impl; try exact H;
      intros p q; unfold flip; by rewrite Hsym.
  - intros Htrans.
    rewrite (eq_run _ σ a b me you), (eq_run _ σ b c you them),
      (eq_run _ σ a c me them) by done.
    intros [= Hab] [= Hbc]. do 2 f_equal.
    apply izip_longest_all in Hab, Hbc. apply izip_longest_all.
    eapply Forall2_trans; [|exact Hab|exact Hbc].
    intros p q r. apply Htrans.
Qed.

End eq_more.

Lemma PathSpec_eq_equivalence_witness :
  __eq__ source_eq 1 1 (<[3 := demo_leaf]> demo_store)
  = (Ok true, <[3 := demo_leaf]> demo_store)
  ∧ __eq__ source_eq 1 3 (<[3 := demo_leaf]> demo_store)
    = __eq__ source_eq 3 1 (<[3 := demo_leaf]> demo_store)
  ∧ (__eq__ source_eq 1 3 (<[3 := demo_leaf]> demo_store)
     = (Ok true, <[3 := demo_leaf]> demo_store) →
     __eq__ source_eq 3 0 (<[3 := demo_leaf]> demo_store)
     = (Ok true, <[3 := demo_leaf]> demo_store) →
     __eq__ source_eq 1 0 (<[3 := demo_leaf]> demo_store)
     = (Ok true, <[3 := demo_leaf]> demo_store)).
Proof.
  destruct (PathSpec_eq_equivalence source_eq (<[3 := demo_leaf]> demo_store)
              1 3 0 demo_leaf demo_leaf demo_root)
    as (Hrefl & Hsym & Htrans); [reflexivity | reflexivity | reflexivity |].
  split; [apply Hrefl, source_eq_refl|].
  split; [apply Hsym, source_eq_sym|].
  apply Htrans, source_eq_trans.
Defined.
